(** * Sentinel threat dashboard: event feed, mitigation and geo projection

    A shallow embedding of the logic of the dashboard front end:

    - [src/App.tsx]: the [threats] state with its three writers
      ([fetchThreats], the web-socket [onmessage] handler and
      [handleMitigate]);
    - [GeoMap.tsx]: the [visibleThreats] filter and the ten second
      "NEW" badge of the flat map;
    - [src/Globe3D.tsx]: [latLonToVector3], the [AttackArc] curve and the
      globe's [visibleThreats] filter.

    JavaScript numbers that carry coordinates are modelled by the real
    numbers they approximate; epoch milliseconds are integers.  React state
    is threaded explicitly: every handler is a function from the state
    before to the state after. *)

From Stdlib Require Import List String ZArith Bool Lia.
From Stdlib Require Import Reals Lra.
Import ListNotations.

Local Open Scope string_scope.
Local Open Scope list_scope.

(** ** Data model *)

(** [source_coords] / [target_coords] of a threat. *)
Record Coords := mkCoords {
  lat : R;
  lon : R;
  city : string
}.

Record Analysis := mkAnalysis {
  behavioral_score : R;
  pattern_match : string;
  risk_index : R
}.

(** [interface Threat].  Records arrive through [response.json()] and
    [JSON.parse], which check nothing, so a field the interface declares
    can be absent at run time; [id] is given as an option for that reason
    ([None] is JavaScript's [undefined]).  The fields marked [?] in the
    interface are options as well. *)
Record Threat := mkThreat {
  id : option string;
  timestamp : string;
  type : string;
  severity : string;
  source : string;
  target : string;
  location : string;
  attribution : string;
  status : string;
  confidence : R;
  source_coords : option Coords;
  target_coords : option Coords;
  analysis : option Analysis;
  mitigation_suggestions : option (list string)
}.

(** [{ ...t, status: s }] *)
Definition with_status (t : Threat) (s : string) : Threat :=
  {| id := id t; timestamp := timestamp t; type := type t;
     severity := severity t; source := source t; target := target t;
     location := location t; attribution := attribution t;
     status := s; confidence := confidence t;
     source_coords := source_coords t; target_coords := target_coords t;
     analysis := analysis t;
     mitigation_suggestions := mitigation_suggestions t |}.

(** [t.id === i] for a string [i]: an absent id equals no string. *)
Definition id_is (t : Threat) (i : string) : bool :=
  match id t with
  | Some j => String.eqb j i
  | None => false
  end.

(** [a || b] on strings: the empty string is falsy. *)
Definition js_or (a b : string) : string :=
  match a with
  | EmptyString => b
  | _ => a
  end.

(** The truth value of an optional object: [undefined] is falsy. *)
Definition truthy {A : Type} (o : option A) : bool :=
  match o with
  | Some _ => true
  | None => false
  end.

(** [arr.slice(0, 50)] *)
Definition slice50 {A : Type} (l : list A) : list A := firstn 50 l.

Definition ids (l : list Threat) : list (option string) := map id l.

(** ** Lookups in object literals *)

(** The property names every object literal inherits from
    [Object.prototype].  [obj[k]] for such a [k] that is not a key of the
    literal is the inherited function or object, which is truthy, so
    [obj[k] || fallback] does not take the fallback. *)
Definition objectPrototypeKeys : list string :=
  ["constructor"; "hasOwnProperty"; "isPrototypeOf"; "propertyIsEnumerable";
   "toLocaleString"; "toString"; "valueOf"; "__proto__";
   "__defineGetter__"; "__defineSetter__";
   "__lookupGetter__"; "__lookupSetter__"].

Definition inherited (k : string) : bool :=
  existsb (String.eqb k) objectPrototypeKeys.

(** The own property [k] of a literal given by its entries. *)
Fixpoint own {A : Type} (entries : list (string * A)) (k : string)
    : option A :=
  match entries with
  | [] => None
  | (k', v) :: rest => if String.eqb k k' then Some v else own rest k
  end.

(** ** The component state of [App] *)

Module App.

(** The state the handlers below read and write.  [alerts] collects the
    texts passed to [alert], oldest first: what the operator is shown. *)
Record State := mkState {
  threats : list Threat;
  selectedThreat : option Threat;
  alerts : list string
}.

(** [useState<Threat[]>([])], [useState<Threat | null>(null)] *)
Definition init : State :=
  {| threats := []; selectedThreat := None; alerts := [] |}.

Definition setThreats (f : list Threat -> list Threat) (st : State) : State :=
  {| threats := f (threats st);
     selectedThreat := selectedThreat st;
     alerts := alerts st |}.

Definition setSelectedThreat (f : option Threat -> option Threat)
    (st : State) : State :=
  {| threats := threats st;
     selectedThreat := f (selectedThreat st);
     alerts := alerts st |}.

Definition alert (text : string) (st : State) : State :=
  {| threats := threats st;
     selectedThreat := selectedThreat st;
     alerts := alerts st ++ [text] |}.

(** *** Snapshot fetch *)

(** How the request of [fetchThreats] resolves. *)
Inductive FetchOutcome :=
| FetchThrows                      (* [fetch] or [response.json()] rejects *)
| FetchNotOk                       (* [response.ok] is false *)
| FetchOk (data : list Threat).    (* [response.ok], body parsed to [data] *)

(** [fetchThreats]: on an ok response [setThreats(data.slice(0, 50))];
    otherwise nothing is written (the [catch] only logs). *)
Definition fetchThreats (r : FetchOutcome) (st : State) : State :=
  match r with
  | FetchOk data => setThreats (fun _ => slice50 data) st
  | FetchNotOk => st
  | FetchThrows => st
  end.

(** *** Push channel *)

(** The payload of a web-socket message. *)
Inductive WsPayload :=
| NotJson                  (* [JSON.parse] throws: the handler is left *)
| Json (data : Threat).

(** [ws.onmessage]: [setThreats(prev => [data, ...prev].slice(0, 50))].
    The handler reads no field of [data]. *)
Definition onmessage (p : WsPayload) (st : State) : State :=
  match p with
  | Json data => setThreats (fun prev => slice50 (data :: prev)) st
  | NotJson => st
  end.

(** *** Mitigation *)

(** The body of the mitigation response as [response.json()] yields it. *)
Inductive ResponseBody :=
| BodyNotJson                              (* [response.json()] rejects *)
| BodyNull                                 (* [null]: [data.message] throws *)
| BodyObject (message : option string).    (* [data.message], if any *)

Inductive MitigateOutcome :=
| MitigateThrows                           (* [fetch] rejects *)
| MitigateResponse (ok : bool) (body : ResponseBody).

(** [updateLocalState] of [handleMitigate].  [captured] is the value of
    [selectedThreat] the closure was created with; the updater of
    [setSelectedThreat] sees the current one. *)
Definition updateLocalState (captured : option Threat) (i : string)
    (st : State) : State :=
  let st1 :=
    setThreats
      (map (fun t => if id_is t i then with_status t "Mitigated" else t)) st in
  match captured with
  | Some s =>
      if id_is s i then
        setSelectedThreat
          (fun prev => match prev with
                       | Some p => Some (with_status p "Mitigated")
                       | None => None
                       end) st1
      else st1
  | None => st1
  end.

(** [handleMitigate(id)], given how the request resolves.  The body is
    parsed before [response.ok] is looked at, and every exception of the
    [try] block ends in the [catch], which calls [updateLocalState]. *)
Definition handleMitigate (captured : option Threat) (i : string)
    (o : MitigateOutcome) (st : State) : State :=
  match o with
  | MitigateThrows => updateLocalState captured i st
  | MitigateResponse ok body =>
      match body with
      | BodyNotJson => updateLocalState captured i st
      | BodyNull => updateLocalState captured i st
      | BodyObject message =>
          if ok then updateLocalState captured i st
          else
            match message with
            | Some m =>
                if String.eqb m "Threat not found"
                then updateLocalState captured i st
                else alert ("Mitigation failed: " ++ js_or m "Unknown error") st
            | None => alert ("Mitigation failed: " ++ "Unknown error") st
            end
      end
  end.

(** *** Runs *)

(** What can happen to the state, in the order the callbacks run. *)
Inductive Event :=
| SnapshotResolved (r : FetchOutcome)
| MessageReceived (p : WsPayload)
| MitigationResolved (captured : option Threat) (i : string)
    (o : MitigateOutcome).

Definition step (st : State) (ev : Event) : State :=
  match ev with
  | SnapshotResolved r => fetchThreats r st
  | MessageReceived p => onmessage p st
  | MitigationResolved captured i o => handleMitigate captured i o st
  end.

Definition run (evs : list Event) (st : State) : State :=
  fold_left step evs st.

(** Pushing the records [es] one after the other, first to last. *)
Definition pushes (es : list Threat) : list Event :=
  map (fun e => MessageReceived (Json e)) es.

(** The outcomes of a mitigation request after which the entry is shown
    as mitigated: an ok response, the "Threat not found" rejection, and a
    transport failure. *)
Inductive Accepted : MitigateOutcome -> Prop :=
| accepted_ok body : Accepted (MitigateResponse true body)
| accepted_not_found :
    Accepted (MitigateResponse false (BodyObject (Some "Threat not found")))
| accepted_transport : Accepted MitigateThrows.

(** An event that cannot create a second entry for an id: a push whose id
    is not in the collection, a snapshot whose first 50 records have
    distinct ids, or any event that inserts nothing. *)
Definition keeps_ids_distinct (st : State) (ev : Event) : Prop :=
  match ev with
  | MessageReceived (Json data) => ~ In (id data) (ids (threats st))
  | SnapshotResolved (FetchOk data) => NoDup (ids (slice50 data))
  | _ => True
  end.

Fixpoint all_keep_ids_distinct (st : State) (evs : list Event) : Prop :=
  match evs with
  | [] => True
  | ev :: rest =>
      keeps_ids_distinct st ev /\ all_keep_ids_distinct (step st ev) rest
  end.

(** [selectedThreat && selectedThreat.id === id] on the value the
    closure was created with. *)
Definition capturedHas (captured : option Threat) (i : string) : bool :=
  match captured with
  | Some s => id_is s i
  | None => false
  end.

(** *** Mitigation with the id read from a record

    The buttons call [handleMitigate(threat.id)] and
    [handleMitigate(selectedThreat.id)].  For a record without an id the
    argument is [undefined], which the signature [(id: string)] does not
    show.  The definitions below are [updateLocalState] and
    [handleMitigate] for such an argument: [None] is [undefined]. *)

(** [t.id === j]: [undefined === undefined] holds. *)
Definition id_eq (t : Threat) (j : option string) : bool :=
  match id t, j with
  | Some a, Some b => String.eqb a b
  | None, None => true
  | _, _ => false
  end.

Definition updateLocalState_any (captured : option Threat)
    (j : option string) (st : State) : State :=
  let st1 :=
    setThreats
      (map (fun t => if id_eq t j then with_status t "Mitigated" else t)) st in
  match captured with
  | Some s =>
      if id_eq s j then
        setSelectedThreat
          (fun prev => match prev with
                       | Some p => Some (with_status p "Mitigated")
                       | None => None
                       end) st1
      else st1
  | None => st1
  end.

Definition handleMitigate_any (captured : option Threat)
    (j : option string) (o : MitigateOutcome) (st : State) : State :=
  match o with
  | MitigateThrows => updateLocalState_any captured j st
  | MitigateResponse ok body =>
      match body with
      | BodyNotJson => updateLocalState_any captured j st
      | BodyNull => updateLocalState_any captured j st
      | BodyObject message =>
          if ok then updateLocalState_any captured j st
          else
            match message with
            | Some m =>
                if String.eqb m "Threat not found"
                then updateLocalState_any captured j st
                else alert ("Mitigation failed: " ++ js_or m "Unknown error") st
            | None => alert ("Mitigation failed: " ++ "Unknown error") st
            end
      end
  end.

End App.

(** ** three.js vectors and curves

    The operations of three.js that [Globe3D.tsx] calls, as the library
    defines them, over the reals. *)

Module THREE.

Local Open Scope R_scope.

Record Vector3 := mkVector3 { x : R; y : R; z : R }.


(** [v.addVectors(a, b)] *)
Definition addVectors (a b : Vector3) : Vector3 :=
  {| x := x a + x b; y := y a + y b; z := z a + z b |}.

(** [v.multiplyScalar(s)] *)
Definition multiplyScalar (v : Vector3) (s : R) : Vector3 :=
  {| x := x v * s; y := y v * s; z := z v * s |}.

(** [v.divideScalar(s)] is [v.multiplyScalar(1 / s)]. *)
Definition divideScalar (v : Vector3) (s : R) : Vector3 :=
  multiplyScalar v (1 / s).

(** [v.length()] *)
Definition length (v : Vector3) : R :=
  sqrt (x v * x v + y v * y v + z v * z v).

(** [a.distanceToSquared(b)], [a.distanceTo(b)] *)
Definition distanceToSquared (a b : Vector3) : R :=
  let dx := x a - x b in
  let dy := y a - y b in
  let dz := z a - z b in
  dx * dx + dy * dy + dz * dz.

Definition distanceTo (a b : Vector3) : R := sqrt (distanceToSquared a b).

(** [v.normalize()] is [v.divideScalar(v.length() || 1)]: the zero vector
    is divided by 1 and stays the zero vector. *)
Definition normalize (v : Vector3) : Vector3 :=
  divideScalar v (if Req_dec_T (length v) 0 then 1 else length v).

(** The interpolation of [QuadraticBezierCurve3]:
    [QuadraticBezierP0 + QuadraticBezierP1 + QuadraticBezierP2]. *)
Definition QuadraticBezier (t p0 p1 p2 : R) : R :=
  (1 - t) * (1 - t) * p0 + 2 * (1 - t) * t * p1 + t * t * p2.

Record QuadraticBezierCurve3 := mkCurve {
  v0 : Vector3;
  v1 : Vector3;
  v2 : Vector3
}.

(** [curve.getPoint(t)] *)
Definition getPoint (c : QuadraticBezierCurve3) (t : R) : Vector3 :=
  {| x := QuadraticBezier t (x (v0 c)) (x (v1 c)) (x (v2 c));
     y := QuadraticBezier t (y (v0 c)) (y (v1 c)) (y (v2 c));
     z := QuadraticBezier t (z (v0 c)) (z (v1 c)) (z (v2 c)) |}.

(** [curve.getPoints(divisions)]:
    [for (d = 0; d <= divisions; d++) points.push(getPoint(d / divisions))]. *)
Definition getPoints (c : QuadraticBezierCurve3) (divisions : nat)
    : list Vector3 :=
  map (fun d => getPoint c (INR d / INR divisions)) (seq 0 (S divisions)).

End THREE.

(** ** The globe *)

Module Globe3D.

Local Open Scope R_scope.

(** [latLonToVector3]: convert lat/lon to 3D coordinates on a sphere. *)
Definition latLonToVector3 (lat lon radius : R) : THREE.Vector3 :=
  let phi := (90 - lat) * (PI / 180) in
  let theta := (lon + 180) * (PI / 180) in
  {| THREE.x := - radius * sin phi * cos theta;
     THREE.y := radius * cos phi;
     THREE.z := radius * sin phi * sin theta |}.

(** The control point of an arc between two points of the sphere.

    For antipodal end points the midpoint is exactly zero over the reals,
    [normalize] leaves it zero and the control point below is the centre.
    In the program's doubles the sines and cosines are rounded, the
    midpoint is then a residue that is not zero, and [normalize] scales it
    to length 1: there the direction of the control point is decided by
    rounding, which this definition does not describe.  The results below
    that speak of the control point are bounds and symmetries, which hold
    in both readings. *)
Definition controlPoint (radius : R) (sourceVec targetVec : THREE.Vector3)
    : THREE.Vector3 :=
  let midPoint :=
    THREE.multiplyScalar (THREE.addVectors sourceVec targetVec) 0.5 in
  let distance := THREE.distanceTo sourceVec targetVec in
  THREE.multiplyScalar (THREE.normalize midPoint) (radius + distance * 0.3).

(** The curve built in the [useMemo] of [AttackArc], with the local
    constant [radius] as a parameter. *)
Definition arcCurve (radius : R) (source target : Coords)
    : THREE.QuadraticBezierCurve3 :=
  let sourceVec := latLonToVector3 (lat source) (lon source) radius in
  let targetVec := latLonToVector3 (lat target) (lon target) radius in
  {| THREE.v0 := sourceVec;
     THREE.v1 := controlPoint radius sourceVec targetVec;
     THREE.v2 := targetVec |}.

(** [curve.getPoints(50)] *)
Definition arcPoints (radius : R) (source target : Coords)
    : list THREE.Vector3 :=
  THREE.getPoints (arcCurve radius source target) 50.

(** [const radius = 2] *)
Definition radius : R := 2.

(** The [points] of [AttackArc]. *)
Definition AttackArc (source target : Coords) : list THREE.Vector3 :=
  arcPoints radius source target.

(** [colorMap] of [AttackArc] and of [Marker]. *)
Definition colorMap : list (string * string) :=
  [("Critical", "#ef4444"); ("High", "#f97316");
   ("Medium", "#eab308"); ("Low", "#3b82f6")].

(** [colorMap[severity] || '#3b82f6']; [None] is a value inherited from
    [Object.prototype], which is not a colour. *)
Definition colorOf (severity : string) : option string :=
  match own colorMap severity with
  | Some c => Some c
  | None => if inherited severity then None else Some "#3b82f6"
  end.

(** The filter of [visibleThreats]:
    [t.status === 'Detected' && t.source_coords && t.target_coords]. *)
Definition visible (t : Threat) : bool :=
  String.eqb (status t) "Detected"
  && truthy (source_coords t)
  && truthy (target_coords t).

(** [activeThreats.filter(...).slice(0, 50)] *)
Definition visibleThreats (activeThreats : list Threat) : list Threat :=
  slice50 (filter visible activeThreats).

(** The arc drawn for one threat; [None] stands for the [TypeError] of
    reading [lat] from an absent [source_coords!] or [target_coords!]. *)
Definition arcOf (t : Threat)
    : option (list THREE.Vector3 * option string) :=
  match source_coords t, target_coords t with
  | Some s, Some g => Some (AttackArc s g, colorOf (severity t))
  | _, _ => None
  end.

(** The position of the source marker of one threat. *)
Definition markerOf (t : Threat) : option THREE.Vector3 :=
  match source_coords t with
  | Some s => Some (latLonToVector3 (lat s) (lon s) 2)
  | None => None
  end.

(** What the component hands to the projection: one arc and one marker
    for each visible threat. *)
Definition arcs (activeThreats : list Threat) :=
  map arcOf (visibleThreats activeThreats).

Definition markers (activeThreats : list Threat) :=
  map markerOf (visibleThreats activeThreats).

End Globe3D.

(** ** The flat map *)

Module GeoMap.

(** The filter of [visibleThreats], the same test as on the globe. *)
Definition visible (t : Threat) : bool :=
  String.eqb (status t) "Detected"
  && truthy (source_coords t)
  && truthy (target_coords t).

Definition visibleThreats (activeThreats : list Threat) : list Threat :=
  filter visible activeThreats.

(** [sourcePos] and [targetPos] of the polyline of one threat; [None] is
    the [TypeError] of an absent coordinate pair. *)
Definition pathOf (t : Threat) : option ((R * R) * (R * R)) :=
  match source_coords t, target_coords t with
  | Some s, Some g => Some ((lat s, lon s), (lat g, lon g))
  | _, _ => None
  end.

Definition paths (activeThreats : list Threat) :=
  map pathOf (visibleThreats activeThreats).

Section Clock.

(** [new Date(s).getTime()]: the epoch milliseconds of a time stamp, or
    [None] for [NaN] (a string [Date] cannot parse).  The parser is the
    JavaScript runtime's. *)
Variable getTime : string -> option Z.

Local Open Scope Z_scope.

(** [isNew] of a source marker, with [currentTime] the clock reading
    [new Date().getTime()].  A comparison with [NaN] is false. *)
Definition isNew (threat : Threat) (currentTime : Z) : bool :=
  match getTime (timestamp threat) with
  | Some threatTime => currentTime - threatTime <? 10000
  | None => false
  end.

End Clock.

End GeoMap.

(** ** The projection as the specification words it *)

Module Spec.

Local Open Scope R_scope.

(** [project3D(lat, lon, r)]: [phi = (90 - lat) * pi / 180],
    [theta = (lon + 180) * pi / 180]. *)
Definition project3D (lat lon r : R) : THREE.Vector3 :=
  let phi := (90 - lat) * PI / 180 in
  let theta := (lon + 180) * PI / 180 in
  {| THREE.x := - (r * sin phi * cos theta);
     THREE.y := r * cos phi;
     THREE.z := r * sin phi * sin theta |}.

(** The point at parameter [t] of the quadratic Bezier curve with end
    points [p0], [p2] and control point [p1]. *)
Definition bezier (p0 p1 p2 : THREE.Vector3) (t : R) : THREE.Vector3 :=
  THREE.addVectors
    (THREE.addVectors
       (THREE.multiplyScalar p0 ((1 - t) ^ 2))
       (THREE.multiplyScalar p1 (2 * (1 - t) * t)))
    (THREE.multiplyScalar p2 (t ^ 2)).

End Spec.

(** ** Sample records *)

Module Samples.

(** A record with the given id and status and fixed other fields. *)
Definition threat (i : option string) (s : string) : Threat :=
  {| id := i; timestamp := "2024-01-01T00:00:00Z"; type := "DDoS";
     severity := "High"; source := "10.0.0.1"; target := "10.0.0.2";
     location := "Unknown"; attribution := "Unknown";
     status := s; confidence := 1%R;
     source_coords := None; target_coords := None;
     analysis := None; mitigation_suggestions := None |}.

(** The [n]-th record of a stream of records with distinct ids. *)
Definition numbered (n : nat) : Threat :=
  threat (Some (String (Ascii.ascii_of_nat n) EmptyString)) "Detected".

Definition detectedA : Threat := threat (Some "A") "Detected".
Definition detectedB : Threat := threat (Some "B") "Detected".
Definition withoutId : Threat := threat None "Detected".

(** The id and status of every entry, front to back. *)
Definition summary (l : list Threat) : list (option string * string) :=
  map (fun t => (id t, status t)) l.

Definition northPole : Coords := {| lat := 90%R; lon := 0%R; city := "N" |}.

Definition located (s : string) : Threat :=
  {| id := Some "L"; timestamp := "2024-01-01T00:00:00Z"; type := "DDoS";
     severity := "High"; source := "10.0.0.1"; target := "10.0.0.2";
     location := "Unknown"; attribution := "Unknown";
     status := s; confidence := 1%R;
     source_coords := Some northPole; target_coords := Some northPole;
     analysis := None; mitigation_suggestions := None |}.

(** A record with both coordinate pairs and no id. *)
Definition locatedWithoutId : Threat :=
  {| id := None; timestamp := "2024-01-01T00:00:00Z"; type := "DDoS";
     severity := "High"; source := "10.0.0.1"; target := "10.0.0.2";
     location := "Unknown"; attribution := "Unknown";
     status := "Detected"; confidence := 1%R;
     source_coords := Some northPole; target_coords := Some northPole;
     analysis := None; mitigation_suggestions := None |}.

End Samples.

(** The relation between an entry before and after a mitigation call
    resolves: same id, and a mitigated entry is still mitigated. *)
Definition never_reverts (before after : Threat) : Prop :=
  id after = id before /\
  (status before = "Mitigated" -> status after = "Mitigated").

(** ** Values [App] derives from the collection *)

Module Dashboard.

(** [(4281 + threats.length)], the number behind "Total Threats
    Detected". *)
Definition totalThreats (threats : list Threat) : Z :=
  4281 + Z.of_nat (List.length threats).

(** [threats.filter(t => t.status !== 'Mitigated').length], the number
    behind "Active Attacks". *)
Definition activeAttacks (threats : list Threat) : nat :=
  List.length
    (filter (fun t => negb (String.eqb (status t) "Mitigated")) threats).

(** The collection handed to [GeoMap]:
    [attackTypeFilter === 'All' ? threats
       : threats.filter(t => t.type === attackTypeFilter)]. *)
Definition mapThreats (attackTypeFilter : string) (threats : list Threat)
    : list Threat :=
  if String.eqb attackTypeFilter "All" then threats
  else filter (fun t => String.eqb (type t) attackTypeFilter) threats.

(** The tiles of the statistics overlay of the map. *)
Definition locationTiles : list string := ["Russia"; "China"; "USA"; "Unknown"].

(** The number on the tile [loc]:
    [(...).filter(t => t.location === loc).length]. *)
Definition locationCount (attackTypeFilter : string) (threats : list Threat)
    (loc : string) : nat :=
  List.length
    (filter (fun t => String.eqb (location t) loc)
       (mapThreats attackTypeFilter threats)).

(** The rows of the "Automated Response Log":
    [threats.filter(t => t.status === 'Mitigated').slice(0, 10)]. *)
Definition responseLog (threats : list Threat) : list Threat :=
  firstn 10 (filter (fun t => String.eqb (status t) "Mitigated") threats).

(** [threat.id.slice(0, 8)] in a row of the threat table; [None] is the
    [TypeError] of calling [slice] on an absent id.  Strings are byte
    strings here, which agrees with JavaScript on ASCII ids. *)
Definition rowLabel (t : Threat) : option string :=
  match id t with
  | Some i => Some (substring 0 8 i)
  | None => None
  end.

(** The labels of [threats.map(...)] in the table body: the first row
    that throws ends the rendering. *)
Fixpoint rowLabels (threats : list Threat) : option (list string) :=
  match threats with
  | [] => Some []
  | t :: rest =>
      match rowLabel t with
      | None => None
      | Some label =>
          match rowLabels rest with
          | None => None
          | Some labels => Some (label :: labels)
          end
      end
  end.

(** The updater of [setGraphData] in [ws.onmessage]:
    [[...prev.slice(1), point]], where [point] carries the clock reading
    and the random count. *)
Definition nextGraphData {P : Type} (prev : list P) (point : P) : list P :=
  skipn 1 prev ++ [point].

(** [graphData] after the messages that brought [points], in order. *)
Definition graphDataAfter {P : Type} (points : list P) (initial : list P)
    : list P :=
  fold_left nextGraphData points initial.

End Dashboard.

(** ** Styling on the flat map *)

Module MapStyle.

Local Open Scope R_scope.

(** [getSeverityColor] of [GeoMap]: a [switch] with a default. *)
Definition getSeverityColor (severity : string) : string :=
  if String.eqb severity "Critical" then "#ef4444"
  else if String.eqb severity "High" then "#f97316"
  else if String.eqb severity "Medium" then "#eab308"
  else "#3b82f6".

(** [colorMap] of [createPulsingIcon]. *)
Definition colorMap : list (string * string) :=
  [("Critical", "#ef4444"); ("High", "#f97316");
   ("Medium", "#eab308"); ("Low", "#3b82f6")].


(** The stroke of a polyline; a field the style object lacks is [None]. *)
Record Stroke := mkStroke {
  dashArray : option string;
  weight : option Z;
  opacity : option R
}.

(** [attackStyles] of [getAttackPathStyle]. *)
Definition attackStyles : list (string * Stroke) :=
  [("DDoS", mkStroke (Some "5, 5") (Some 3%Z) (Some 0.7));
   ("Brute Force", mkStroke (Some "10, 5") (Some 2%Z) (Some 0.6));
   ("Ransomware", mkStroke (Some "15, 5, 5, 5") (Some 3%Z) (Some 0.8));
   ("Phishing", mkStroke (Some "2, 8") (Some 2%Z) (Some 0.5));
   ("SQL Injection", mkStroke (Some "8, 3, 2, 3") (Some 2%Z) (Some 0.6));
   ("Zero-Day Exploit", mkStroke None (Some 4%Z) (Some 0.9));
   ("Supply Chain Attack", mkStroke (Some "20, 10") (Some 3%Z) (Some 0.7));
   ("AI-Powered Attack", mkStroke (Some "3, 3") (Some 3%Z) (Some 0.8));
   ("Cryptojacking", mkStroke (Some "12, 8") (Some 2%Z) (Some 0.5));
   ("API Abuse", mkStroke (Some "6, 4") (Some 2%Z) (Some 0.6));
   ("IoT Botnet", mkStroke (Some "4, 6") (Some 2%Z) (Some 0.6));
   ("Credential Stuffing", mkStroke (Some "10, 10") (Some 2%Z) (Some 0.6));
   ("Port Scan", mkStroke (Some "1, 4") (Some 1%Z) (Some 0.4));
   ("Unauthorized Access", mkStroke (Some "7, 7") (Some 2%Z) (Some 0.6))].

(** [attackStyles[attackType] || { weight: 2, opacity: 0.6 }], spread into
    the result.  An inherited value has no enumerable property of its
    own, so spreading it contributes no field. *)
Definition strokeOf (attackType : string) : Stroke :=
  match own attackStyles attackType with
  | Some style => style
  | None =>
      if inherited attackType then mkStroke None None None
      else mkStroke None (Some 2%Z) (Some 0.6)
  end.

(** [getAttackPathStyle]: [{ ...style, color: baseColor }]. *)
Definition getAttackPathStyle (attackType severity : string)
    : Stroke * string :=
  (strokeOf attackType, getSeverityColor severity).

(** One corner of the bounds of [AutoFitBounds]; [None] is the
    [TypeError] of reading [lat] from an absent [source_coords!]. *)
Definition cornerOf (t : Threat) : option (R * R) :=
  match source_coords t with
  | Some s => Some (lat s, lon s)
  | None => None
  end.

(** The effect of [AutoFitBounds]: the argument of [map.fitBounds] when it
    is called, [None] when it is not. *)
Definition AutoFitBounds (threats : list Threat)
    : option (list (option (R * R))) :=
  if (0 <? List.length threats)%nat then
    let bounds :=
      map cornerOf (filter (fun t => truthy (source_coords t)) threats) in
    if (0 <? List.length bounds)%nat then Some bounds else None
  else None.

(** The position of the single target marker:
    [visibleThreats.length > 0 && visibleThreats[0].target_coords && ...]. *)
Definition targetMarker (visibleThreats : list Threat) : option (R * R) :=
  match visibleThreats with
  | [] => None
  | first :: _ =>
      match target_coords first with
      | Some g => Some (lat g, lon g)
      | None => None
      end
  end.

(** What one render of [GeoMap] produces.  The popup of every source
    marker evaluates [threat.id.slice(0, 8)] while the component renders,
    so a visible threat without an id makes the render throw ([None]):
    then no child is mounted, [AutoFitBounds] included.  Otherwise the
    popup labels, the effect of [AutoFitBounds] on the visible threats and
    the target marker are produced. *)
Record Drawing := mkDrawing {
  popupLabels : list string;
  fit : option (list (option (R * R)));
  target : option (R * R)
}.

Definition render (activeThreats : list Threat) : option Drawing :=
  let visibleThreats := GeoMap.visibleThreats activeThreats in
  match Dashboard.rowLabels visibleThreats with
  | None => None
  | Some labels =>
      Some {| popupLabels := labels;
              fit := AutoFitBounds visibleThreats;
              target := targetMarker visibleThreats |}
  end.

End MapStyle.

(** * Properties of the event feed *)

Section Slices.

Context {A : Type}.

Lemma slice50_length (l : list A) : (List.length (slice50 l) <= 50)%nat.
Proof. unfold slice50. apply firstn_le_length. Qed.

Lemma slice50_short (l : list A) :
  (List.length l <= 50)%nat -> slice50 l = l.
Proof. intros H. unfold slice50. now apply firstn_all2. Qed.

(** Truncating before a push changes nothing once the result is
    truncated again. *)
Lemma slice50_cons_slice50 (a : A) (l : list A) :
  slice50 (a :: slice50 l) = slice50 (a :: l).
Proof.
  unfold slice50. change 50%nat with (S 49).
  rewrite !firstn_cons. f_equal.
  rewrite firstn_firstn. f_equal.
Qed.

(** Truncating the tail of a list first does not show in a truncation
    that is at most as long. *)
Lemma firstn_app_firstn (n k : nat) (l m : list A) :
  (n <= k)%nat -> firstn n (l ++ firstn k m) = firstn n (l ++ m).
Proof.
  revert n. induction l as [|a l IH]; intros n H; cbn [app].
  - rewrite firstn_firstn. f_equal. lia.
  - destruct n as [|n]; cbn [firstn]; [reflexivity|].
    f_equal. apply IH. lia.
Qed.

Lemma NoDup_firstn (n : nat) (l : list A) :
  NoDup l -> NoDup (firstn n l).
Proof.
  intros H. revert n.
  induction H as [|a l Hin Hnd IH]; intros [|n]; cbn [firstn];
    try constructor; auto.
  intros Hc. apply Hin. revert Hc. clear.
  revert n. induction l as [|b l IH]; intros [|n]; cbn [firstn In];
    try tauto.
  intros [->|H]; [now left | right; eauto].
Qed.

End Slices.

Lemma ids_slice50 (l : list Threat) : ids (slice50 l) = slice50 (ids l).
Proof. unfold ids, slice50. symmetry. apply firstn_map. Qed.

Lemma id_with_status (t : Threat) (s : string) : id (with_status t s) = id t.
Proof. reflexivity. Qed.

Lemma id_is_true (t : Threat) (i : string) :
  id_is t i = true <-> id t = Some i.
Proof.
  unfold id_is. destruct (id t) as [j|].
  - rewrite String.eqb_eq. split; congruence.
  - split; discriminate.
Qed.

(** What [updateLocalState] does to the three parts of the state. *)
Lemma threats_updateLocalState captured i st :
  App.threats (App.updateLocalState captured i st) =
  map (fun t => if id_is t i then with_status t "Mitigated" else t)
      (App.threats st).
Proof.
  unfold App.updateLocalState.
  destruct captured as [s|]; [destruct (id_is s i)|]; reflexivity.
Qed.

Lemma alerts_updateLocalState captured i st :
  App.alerts (App.updateLocalState captured i st) = App.alerts st.
Proof.
  unfold App.updateLocalState.
  destruct captured as [s|]; [destruct (id_is s i)|]; reflexivity.
Qed.

(** A mitigation call either runs [updateLocalState] or raises one alert
    and leaves the collection alone. *)
Lemma handleMitigate_cases captured i o st :
  App.handleMitigate captured i o st = App.updateLocalState captured i st \/
  exists text, App.handleMitigate captured i o st = App.alert text st.
Proof.
  destruct o as [|ok [| |[m|]]]; cbn [App.handleMitigate]; auto;
    destruct ok; auto; [|eauto].
  destruct (String.eqb m "Threat not found"); eauto.
Qed.

Lemma handleMitigate_accepted captured i o st :
  App.Accepted o ->
  App.handleMitigate captured i o st = App.updateLocalState captured i st.
Proof.
  intros [body| |]; cbn; try reflexivity.
  destruct body as [| |m]; reflexivity.
Qed.

Lemma ids_mark (i : string) (l : list Threat) :
  ids (map (fun t => if id_is t i then with_status t "Mitigated" else t) l)
  = ids l.
Proof.
  unfold ids. rewrite map_map. apply map_ext.
  intros t. destruct (id_is t i); reflexivity.
Qed.

Lemma ids_handleMitigate captured i o st :
  ids (App.threats (App.handleMitigate captured i o st)) =
  ids (App.threats st).
Proof.
  destruct (handleMitigate_cases captured i o st) as [E|[text E]]; rewrite E.
  - rewrite threats_updateLocalState. apply ids_mark.
  - reflexivity.
Qed.

Lemma length_handleMitigate captured i o st :
  List.length (App.threats (App.handleMitigate captured i o st)) =
  List.length (App.threats st).
Proof.
  rewrite <- (length_map id (App.threats st)).
  rewrite <- (length_map id (App.threats (App.handleMitigate _ _ _ _))).
  fold (ids (App.threats st)). 
  fold (ids (App.threats (App.handleMitigate captured i o st))).
  now rewrite ids_handleMitigate.
Qed.

Lemma run_app (evs1 evs2 : list App.Event) (st : App.State) :
  App.run (evs1 ++ evs2) st = App.run evs2 (App.run evs1 st).
Proof. unfold App.run. apply fold_left_app. Qed.

(** One event keeps the collection within capacity. *)
Lemma step_capacity (st : App.State) (ev : App.Event) :
  (List.length (App.threats st) <= 50)%nat ->
  (List.length (App.threats (App.step st ev)) <= 50)%nat.
Proof.
  intros H. destruct ev as [[| |data]|[|data]|captured i o]; cbn; auto.
  - apply slice50_length.
  - apply (slice50_length (data :: App.threats st)).
  - now rewrite length_handleMitigate.
Qed.

Lemma run_capacity (evs : list App.Event) (st : App.State) :
  (List.length (App.threats st) <= 50)%nat ->
  (List.length (App.threats (App.run evs st)) <= 50)%nat.
Proof.
  revert st. induction evs as [|ev evs IH]; intros st H; cbn; auto.
  apply IH. now apply step_capacity.
Qed.

(** Pushes pile up at the front, newest first. *)
Lemma run_pushes (es : list Threat) (st : App.State) :
  (List.length (App.threats st) <= 50)%nat ->
  App.threats (App.run (App.pushes es) st) =
  slice50 (rev es ++ App.threats st).
Proof.
  revert st. induction es as [|e es IH]; intros st H.
  - cbn. symmetry. now apply slice50_short.
  - cbn [App.pushes map App.run fold_left].
    fold (App.pushes es). fold (App.run (App.pushes es)).
    rewrite IH by (apply step_capacity; assumption).
    cbn [App.step App.onmessage App.setThreats App.threats rev].
    rewrite <- app_assoc. cbn [app].
    unfold slice50 at 1 2.
    apply (firstn_app_firstn 50 50 (rev es) (e :: App.threats st)). lia.
Qed.

(** One event that inserts no second entry for an id keeps ids distinct. *)
Lemma step_distinct (st : App.State) (ev : App.Event) :
  NoDup (ids (App.threats st)) ->
  App.keeps_ids_distinct st ev ->
  NoDup (ids (App.threats (App.step st ev))).
Proof.
  intros Hnd Hok.
  destruct ev as [[| |data]|[|data]|captured i o];
    cbn [App.step App.fetchThreats App.onmessage App.setThreats App.threats
         App.keeps_ids_distinct] in *; auto.
  - rewrite ids_slice50. unfold slice50. apply NoDup_firstn.
    cbn [ids map]. now constructor.
  - now rewrite ids_handleMitigate.
Qed.

Lemma run_distinct (evs : list App.Event) (st : App.State) :
  NoDup (ids (App.threats st)) ->
  App.all_keep_ids_distinct st evs ->
  NoDup (ids (App.threats (App.run evs st))).
Proof.
  revert st. induction evs as [|ev evs IH]; intros st Hnd Hall; cbn; auto.
  destruct Hall as [Hev Hrest].
  apply IH; [now apply step_distinct | exact Hrest].
Qed.

(** A mitigation call reverts no entry. *)
Lemma handleMitigate_never_reverts captured i o st :
  Forall2 never_reverts
    (App.threats st) (App.threats (App.handleMitigate captured i o st)).
Proof.
  destruct (handleMitigate_cases captured i o st) as [E|[text E]]; rewrite E.
  - rewrite threats_updateLocalState.
    induction (App.threats st) as [|t l IH]; cbn [map]; constructor; auto.
    unfold never_reverts. destruct (id_is t i); cbn; auto.
  - cbn. induction (App.threats st) as [|t l IH]; constructor; auto.
    unfold never_reverts. auto.
Qed.

(** ** Snapshot loads and the status of an entry *)

(** C1, as the code has it: a successful snapshot load does not merge.
    It replaces the working collection by the first 50 records of the
    snapshot, so afterwards every entry has the status the snapshot gives
    it, whatever the status was locally.  A load that fails leaves the
    state as it was, and a mitigation call, however it resolves, keeps
    every entry in place with its id and never takes the status
    Mitigated away from one. *)
Theorem snapshot_replaces_collection :
  (forall data st,
      App.threats (App.fetchThreats (App.FetchOk data) st) = slice50 data) /\
  (forall st,
      App.fetchThreats App.FetchNotOk st = st /\
      App.fetchThreats App.FetchThrows st = st) /\
  (forall captured i o st,
      Forall2 never_reverts
        (App.threats st)
        (App.threats (App.handleMitigate captured i o st))).
Proof.
  split; [|split].
  - reflexivity.
  - intros st. split; reflexivity.
  - apply handleMitigate_never_reverts.
Qed.

(** C1 fails as stated: push A, mitigate it with an ok response, then load
    a snapshot that lists A as Detected.  A is Mitigated before the load
    and Detected after it. *)
Lemma snapshot_reverts_mitigated :
  let st :=
    App.run
      [App.MessageReceived (App.Json Samples.detectedA);
       App.MitigationResolved None "A"
         (App.MitigateResponse true (App.BodyObject None))]
      App.init in
  Samples.summary (App.threats st) = [(Some "A", "Mitigated")] /\
  Samples.summary
    (App.threats (App.fetchThreats (App.FetchOk [Samples.detectedA]) st))
  = [(Some "A", "Detected")].
Proof. split; reflexivity. Qed.

(** ** Uniqueness of ids *)

(** C2, as the code has it: a push never updates in place, it puts the
    record at the front and truncates to 50.  Ids stay distinct along a
    run from the empty collection when no pushed record has an id that is
    in the collection at that moment and every snapshot lists distinct ids
    among its first 50 records. *)
Theorem distinct_ids_preserved :
  (forall data st,
      App.threats (App.onmessage (App.Json data) st) =
      slice50 (data :: App.threats st)) /\
  (forall evs,
      App.all_keep_ids_distinct App.init evs ->
      NoDup (ids (App.threats (App.run evs App.init)))).
Proof.
  split.
  - reflexivity.
  - intros evs H. apply run_distinct; [constructor | exact H].
Qed.

Lemma distinct_ids_preserved_witness :
  NoDup
    (ids (App.threats
            (App.run
               [App.MessageReceived (App.Json Samples.detectedA);
                App.SnapshotResolved
                  (App.FetchOk [Samples.detectedB; Samples.detectedA]);
                App.MitigationResolved None "A" App.MitigateThrows]
               App.init))).
Proof.
  apply (proj2 distinct_ids_preserved).
  cbn. repeat split.
  - intros [].
  - repeat constructor; cbn; intuition discriminate.
Defined.

(** C2 fails as stated: pushing the same record twice leaves two entries
    with the id A. *)
Lemma push_duplicates_id :
  let st :=
    App.run
      [App.MessageReceived (App.Json Samples.detectedA);
       App.MessageReceived (App.Json Samples.detectedA)]
      App.init in
  ids (App.threats st) = [Some "A"; Some "A"] /\
  ~ NoDup (ids (App.threats st)).
Proof.
  split; [reflexivity|].
  cbn. intros H. inversion H as [|x l Hin _]. apply Hin. now left.
Qed.

(** ** Capacity *)

(** C3: after any sequence of snapshot loads, pushes and mitigation calls
    from the empty collection the collection holds at most 50 entries.
    Pushing the records [es] after such a sequence leaves the first 50 of
    [es] newest first followed by the older entries, so only entries at
    the tail are lost; from 50 pushed records on, the collection is the 50
    most recently pushed ones. *)
Theorem capacity_and_recency (evs : list App.Event) :
  (List.length (App.threats (App.run evs App.init)) <= 50)%nat /\
  (forall es,
      App.threats (App.run (evs ++ App.pushes es) App.init) =
      slice50 (rev es ++ App.threats (App.run evs App.init))) /\
  (forall es,
      (50 <= List.length es)%nat ->
      App.threats (App.run (evs ++ App.pushes es) App.init) =
      firstn 50 (rev es)).
Proof.
  assert (H : (List.length (App.threats (App.run evs App.init)) <= 50)%nat)
    by (apply run_capacity; cbn; lia).
  assert (Hes : forall es,
             App.threats (App.run (evs ++ App.pushes es) App.init) =
             slice50 (rev es ++ App.threats (App.run evs App.init))).
  { intros es. rewrite run_app. now apply run_pushes. }
  split; [exact H|split; [exact Hes|]].
  intros es Hlen. rewrite Hes. unfold slice50.
  rewrite firstn_app, length_rev.
  replace (50 - List.length es)%nat with 0%nat by lia.
  cbn [firstn]. apply app_nil_r.
Qed.

(** Sixty records with distinct ids pushed onto a collection that holds
    A: the ids left are those of the last fifty pushes, newest first. *)
Lemma capacity_and_recency_witness :
  ids (App.threats
         (App.run
            ([App.MessageReceived (App.Json Samples.detectedA)]
             ++ App.pushes (map Samples.numbered (seq 0 60)))
            App.init))
  = ids (map Samples.numbered (rev (seq 10 50))).
Proof.
  rewrite (proj2 (proj2 (capacity_and_recency
                           [App.MessageReceived (App.Json Samples.detectedA)]))
             (map Samples.numbered (seq 0 60))).
  - reflexivity.
  - rewrite length_map, length_seq. lia.
Defined.

(** ** Mitigation *)

(** C4: when a mitigation call for [i] resolves with an ok response, with
    the rejection "Threat not found" or with a transport failure, every
    entry with the id [i] has the status Mitigated afterwards; the entries
    and their ids are the same as before, and no alert is raised. *)
Theorem accepted_mitigation_marks_mitigated captured i o st :
  App.Accepted o ->
  let st' := App.handleMitigate captured i o st in
  (forall t, In t (App.threats st') -> id t = Some i ->
             status t = "Mitigated") /\
  ids (App.threats st') = ids (App.threats st) /\
  App.alerts st' = App.alerts st.
Proof.
  intros Hacc st'. subst st'.
  rewrite (handleMitigate_accepted _ _ _ _ Hacc).
  rewrite threats_updateLocalState, alerts_updateLocalState, ids_mark.
  split; [|split; reflexivity].
  intros t Hin Hid. apply in_map_iff in Hin. destruct Hin as [u [Hu _]].
  destruct (id_is u i) eqn:E; subst t.
  - reflexivity.
  - apply id_is_true in Hid. congruence.
Qed.

Lemma accepted_mitigation_marks_mitigated_witness :
  let st := App.onmessage (App.Json Samples.detectedA) App.init in
  let st' :=
    App.handleMitigate None "A"
      (App.MitigateResponse false (App.BodyObject (Some "Threat not found")))
      st in
  (forall t, In t (App.threats st') -> id t = Some "A" ->
             status t = "Mitigated") /\
  ids (App.threats st') = ids (App.threats st) /\
  App.alerts st' = App.alerts st.
Proof.
  exact (accepted_mitigation_marks_mitigated None "A" _
           (App.onmessage (App.Json Samples.detectedA) App.init)
           App.accepted_not_found).
Defined.

(** A rejection that carries no message at all is reported as an unknown
    error, and changes nothing else. *)
Lemma rejected_without_message captured i st :
  App.handleMitigate captured i
    (App.MitigateResponse false (App.BodyObject None)) st
  = App.alert "Mitigation failed: Unknown error" st.
Proof. reflexivity. Qed.

(** C5: when a mitigation call resolves with a rejection whose message is
    not "Threat not found", the collection and the selected threat are
    unchanged, so a Detected entry stays Detected, and one alert is
    raised.  Its text is "Mitigation failed: " followed by the message
    (by "Unknown error" when the message is empty); the message is the
    end of the text as it was received. *)
Theorem rejected_mitigation_reports_message captured i m st :
  m <> "Threat not found" ->
  let st' :=
    App.handleMitigate captured i
      (App.MitigateResponse false (App.BodyObject (Some m))) st in
  App.threats st' = App.threats st /\
  App.selectedThreat st' = App.selectedThreat st /\
  App.alerts st' =
    App.alerts st ++ [("Mitigation failed: " ++ js_or m "Unknown error")%string]
  /\
  exists before,
    App.alerts st' = App.alerts st ++ [(before ++ m)%string].
Proof.
  intros Hm st'. subst st'. cbn [App.handleMitigate].
  apply String.eqb_neq in Hm. rewrite Hm. cbn.
  repeat split.
  destruct m as [|c m'].
  - exists "Mitigation failed: Unknown error". reflexivity.
  - exists "Mitigation failed: ". reflexivity.
Qed.

Lemma rejected_mitigation_reports_message_witness :
  let st := App.onmessage (App.Json Samples.detectedB) App.init in
  let st' :=
    App.handleMitigate None "B"
      (App.MitigateResponse false (App.BodyObject (Some "Rate limited"))) st in
  Samples.summary (App.threats st') = [(Some "B", "Detected")] /\
  App.alerts st' = ["Mitigation failed: Rate limited"].
Proof.
  destruct (rejected_mitigation_reports_message None "B" "Rate limited"
              (App.onmessage (App.Json Samples.detectedB) App.init))
    as [Ht [_ [Ha _]]].
  - discriminate.
  - cbv zeta. rewrite Ht, Ha. split; reflexivity.
Defined.

(** ** Records without an id *)

(** C6, as the code has it: the push handler looks at no field of the
    record, so a record without an id is not dropped.  It is put at the
    front and the collection is truncated to 50 like after any other
    push, so it is the first entry afterwards.  The handler raises no
    alert, but the record does not pass unnoticed: with it as the first
    entry, the row label [threat.id.slice(0, 8)] of the threat table
    throws.  A payload that is not JSON leaves the state as it was. *)
Theorem record_without_id_is_inserted data st :
  id data = None ->
  let st' := App.onmessage (App.Json data) st in
  App.threats st' = slice50 (data :: App.threats st) /\
  hd_error (App.threats st') = Some data /\
  List.length (App.threats st')
  = Nat.min 50 (S (List.length (App.threats st))) /\
  App.alerts st' = App.alerts st /\
  Dashboard.rowLabels (App.threats st') = None /\
  App.onmessage App.NotJson st = st.
Proof.
  intros Hid. cbv zeta.
  cbn [App.onmessage App.setThreats App.threats App.alerts].
  split; [reflexivity|].
  unfold slice50. rewrite length_firstn.
  change 50%nat with (S 49) at 1 3. rewrite !firstn_cons.
  cbn [hd_error Dashboard.rowLabels List.length].
  unfold Dashboard.rowLabel. rewrite Hid.
  repeat split.
Qed.

Lemma record_without_id_is_inserted_witness :
  let st := App.onmessage (App.Json Samples.detectedA) App.init in
  let st' := App.onmessage (App.Json Samples.withoutId) st in
  App.threats st' = slice50 (Samples.withoutId :: App.threats st) /\
  hd_error (App.threats st') = Some Samples.withoutId /\
  List.length (App.threats st')
  = Nat.min 50 (S (List.length (App.threats st))) /\
  App.alerts st' = App.alerts st /\
  Dashboard.rowLabels (App.threats st') = None /\
  App.onmessage App.NotJson st = st.
Proof.
  exact (record_without_id_is_inserted Samples.withoutId
           (App.onmessage (App.Json Samples.detectedA) App.init)
           eq_refl).
Defined.

(** C6 fails as stated: a pushed record without an id changes the
    collection, it is the new first entry. *)
Lemma record_without_id_not_dropped :
  let st := App.onmessage (App.Json Samples.detectedA) App.init in
  let st' := App.onmessage (App.Json Samples.withoutId) st in
  id Samples.withoutId = None /\
  Samples.summary (App.threats st) = [(Some "A", "Detected")] /\
  Samples.summary (App.threats st') =
    [(None, "Detected"); (Some "A", "Detected")] /\
  App.threats st' <> App.threats st.
Proof.
  repeat split. cbn. discriminate.
Qed.

(** * Properties of the renderers *)

Lemma In_firstn {A : Type} (n : nat) (x : A) (l : list A) :
  In x (firstn n l) -> In x l.
Proof.
  revert n. induction l as [|a l IH]; intros [|n]; cbn [firstn In];
    try tauto.
  intros [H|H]; [now left | right; eauto].
Qed.

(** What the filter of both renderers lets through. *)
Lemma visible_true (t : Threat) :
  Globe3D.visible t = true ->
  status t = "Detected" /\
  (exists s, source_coords t = Some s) /\
  (exists g, target_coords t = Some g).
Proof.
  unfold Globe3D.visible. intros H.
  apply andb_true_iff in H. destruct H as [H Hg].
  apply andb_true_iff in H. destruct H as [Hst Hs].
  apply String.eqb_eq in Hst.
  destruct (source_coords t) as [s|]; [|discriminate].
  destruct (target_coords t) as [g|]; [|discriminate].
  eauto.
Qed.

Lemma GeoMap_visible_eq (t : Threat) : GeoMap.visible t = Globe3D.visible t.
Proof. reflexivity. Qed.

Lemma shown_is_visible (activeThreats : list Threat) (t : Threat) :
  In t (GeoMap.visibleThreats activeThreats) \/
  In t (Globe3D.visibleThreats activeThreats) ->
  In t activeThreats /\ Globe3D.visible t = true.
Proof.
  intros [H|H].
  - apply filter_In in H. now rewrite GeoMap_visible_eq in H.
  - apply In_firstn in H. now apply filter_In in H.
Qed.

(** ** Visibility *)

(** C10: a threat reaches the polylines and markers of the flat map or
    the arcs and markers of the globe only if its status is Detected and
    both coordinate pairs are present, so a Mitigated threat is never
    drawn; and no arc, path or marker is ever asked of a threat without
    the coordinates it reads. *)
Theorem only_detected_with_coords_rendered (activeThreats : list Threat) :
  (forall t,
      In t (GeoMap.visibleThreats activeThreats) \/
      In t (Globe3D.visibleThreats activeThreats) ->
      status t = "Detected" /\
      (exists s, source_coords t = Some s) /\
      (exists g, target_coords t = Some g) /\
      status t <> "Mitigated") /\
  ~ In None (GeoMap.paths activeThreats) /\
  ~ In None (Globe3D.arcs activeThreats) /\
  ~ In None (Globe3D.markers activeThreats).
Proof.
  assert (Hv : forall t,
             In t (GeoMap.visibleThreats activeThreats) \/
             In t (Globe3D.visibleThreats activeThreats) ->
             status t = "Detected" /\
             (exists s, source_coords t = Some s) /\
             (exists g, target_coords t = Some g)).
  { intros t H. apply visible_true. now apply shown_is_visible in H. }
  split; [|repeat split].
  - intros t H. destruct (Hv t H) as [Hst [Hs Hg]].
    repeat split; auto. rewrite Hst. discriminate.
  - unfold GeoMap.paths. intros H. apply in_map_iff in H.
    destruct H as [t [Hn Hin]].
    destruct (Hv t (or_introl Hin)) as [_ [[s Hs] [g Hg]]].
    unfold GeoMap.pathOf in Hn. rewrite Hs, Hg in Hn. discriminate.
  - unfold Globe3D.arcs. intros H. apply in_map_iff in H.
    destruct H as [t [Hn Hin]].
    destruct (Hv t (or_intror Hin)) as [_ [[s Hs] [g Hg]]].
    unfold Globe3D.arcOf in Hn. rewrite Hs, Hg in Hn. discriminate.
  - unfold Globe3D.markers. intros H. apply in_map_iff in H.
    destruct H as [t [Hn Hin]].
    destruct (Hv t (or_intror Hin)) as [_ [[s Hs] _]].
    unfold Globe3D.markerOf in Hn. rewrite Hs in Hn. discriminate.
Qed.

Lemma only_detected_with_coords_rendered_witness :
  status (Samples.located "Detected") = "Detected" /\
  Globe3D.visibleThreats
    [Samples.located "Mitigated"; Samples.detectedA;
     Samples.located "Detected"] = [Samples.located "Detected"].
Proof.
  split.
  - apply (proj1 (only_detected_with_coords_rendered
                    [Samples.located "Mitigated"; Samples.detectedA;
                     Samples.located "Detected"])
             (Samples.located "Detected")).
    left. cbn. now left.
  - reflexivity.
Defined.

(** ** Freshness *)

(** C9: the "NEW" flag of a marker is true exactly when the time stamp of
    the threat is a date and the clock reading minus that date is below
    10000 milliseconds.  It is computed from the time stamp and the clock
    reading alone, and it is false for every clock reading from the date
    plus 10000 milliseconds on. *)
Theorem isNew_within_ten_seconds
    (getTime : string -> option Z) (e : Threat) (now : Z) :
  (GeoMap.isNew getTime e now = true <->
   exists t, getTime (timestamp e) = Some t /\ (now - t < 10000)%Z) /\
  (forall t, getTime (timestamp e) = Some t -> (t + 10000 <= now)%Z ->
             GeoMap.isNew getTime e now = false) /\
  (forall e', timestamp e' = timestamp e ->
              GeoMap.isNew getTime e' now = GeoMap.isNew getTime e now).
Proof.
  unfold GeoMap.isNew. split; [|split].
  - destruct (getTime (timestamp e)) as [t|].
    + rewrite Z.ltb_lt. split.
      * intros H. exists t. auto.
      * intros [t' [E H]]. congruence.
    + split; [discriminate|]. intros [t' [E _]]. discriminate.
  - intros t E H. rewrite E. apply Z.ltb_ge. lia.
  - intros e' E. now rewrite E.
Qed.

Lemma isNew_within_ten_seconds_witness :
  GeoMap.isNew (fun _ => Some 1000%Z) Samples.detectedA 10999 = true /\
  GeoMap.isNew (fun _ => Some 1000%Z) Samples.detectedA 11000 = false.
Proof.
  split.
  - apply (proj1 (isNew_within_ten_seconds
                    (fun _ => Some 1000%Z) Samples.detectedA 10999)).
    exists 1000%Z. split; [reflexivity | lia].
  - apply (proj1 (proj2 (isNew_within_ten_seconds
                           (fun _ => Some 1000%Z) Samples.detectedA 11000))
             1000%Z); [reflexivity | lia].
Defined.

(** * Properties of the projection *)

Section Vectors.

Local Open Scope R_scope.

Lemma vector3_eq (a b : THREE.Vector3) :
  THREE.x a = THREE.x b -> THREE.y a = THREE.y b ->
  THREE.z a = THREE.z b -> a = b.
Proof. destruct a, b; cbn; intros; subst; reflexivity. Qed.








Lemma INR_50 : INR 50 = 50.
Proof. rewrite INR_IZR_INZ. reflexivity. Qed.

(** The interpolation of three.js is the Bezier polynomial. *)
Lemma getPoint_bezier (c : THREE.QuadraticBezierCurve3) (t : R) :
  THREE.getPoint c t = Spec.bezier (THREE.v0 c) (THREE.v1 c) (THREE.v2 c) t.
Proof.
  apply vector3_eq; cbn; unfold THREE.QuadraticBezier; ring.
Qed.

Lemma getPoint_0 (c : THREE.QuadraticBezierCurve3) :
  THREE.getPoint c 0 = THREE.v0 c.
Proof.
  apply vector3_eq; cbn; unfold THREE.QuadraticBezier; ring.
Qed.

Lemma getPoint_1 (c : THREE.QuadraticBezierCurve3) :
  THREE.getPoint c 1 = THREE.v2 c.
Proof.
  apply vector3_eq; cbn; unfold THREE.QuadraticBezier; ring.
Qed.

Lemma length_getPoints (c : THREE.QuadraticBezierCurve3) (n : nat) :
  List.length (THREE.getPoints c n) = S n.
Proof. unfold THREE.getPoints. now rewrite length_map, length_seq. Qed.

Lemma nth_getPoints (c : THREE.QuadraticBezierCurve3) (n d : nat) :
  (d <= n)%nat ->
  nth_error (THREE.getPoints c n) d
  = Some (THREE.getPoint c (INR d / INR n)).
Proof.
  intros H. unfold THREE.getPoints.
  rewrite nth_error_map, nth_error_seq.
  assert (E : (d <? S n)%nat = true) by (apply Nat.ltb_lt; lia).
  rewrite E. reflexivity.
Qed.

(** The north pole of the globe. *)
Lemma latLonToVector3_north_pole :
  Globe3D.latLonToVector3 90 0 2 = {| THREE.x := 0; THREE.y := 2; THREE.z := 0 |}.
Proof.
  unfold Globe3D.latLonToVector3.
  replace ((90 - 90) * (PI / 180)) with 0 by field.
  rewrite sin_0, cos_0.
  apply vector3_eq; cbn; ring.
Qed.

Lemma latLonToVector3_norm_sq (lat lon r : R) :
  let v := Globe3D.latLonToVector3 lat lon r in
  THREE.x v * THREE.x v + THREE.y v * THREE.y v + THREE.z v * THREE.z v
  = r * r.
Proof.
  cbn.
  set (phi := (90 - lat) * (PI / 180)).
  set (theta := (lon + 180) * (PI / 180)).
  pose proof (sin2_cos2 phi) as Hp. pose proof (sin2_cos2 theta) as Ht.
  unfold Rsqr in Hp, Ht.
  replace (- r * sin phi * cos theta * (- r * sin phi * cos theta)
           + r * cos phi * (r * cos phi)
           + r * sin phi * sin theta * (r * sin phi * sin theta))
    with (r * r * (sin phi * sin phi
                   * (sin theta * sin theta + cos theta * cos theta)
                   + cos phi * cos phi))
    by ring.
  rewrite Ht, Rmult_1_r, Hp. ring.
Qed.

Lemma length_latLonToVector3 (lat lon r : R) :
  THREE.length (Globe3D.latLonToVector3 lat lon r) = Rabs r.
Proof.
  unfold THREE.length.
  rewrite (latLonToVector3_norm_sq lat lon r).
  fold (Rsqr r). apply sqrt_Rsqr_abs.
Qed.



End Vectors.

Local Open Scope R_scope.

(** ** The sphere *)

(** C7: [latLonToVector3] is the spherical to Cartesian conversion with
    [phi = (90 - lat) * pi / 180] and [theta = (lon + 180) * pi / 180]; it
    sends latitude 90, longitude 0, radius 2 to the point (0, 2, 0); and
    its result has norm [r] for a radius [r] that is not negative (in
    general the norm is the absolute value of [r]), at every latitude and
    longitude.  This is stated of the real numbers the program's floating
    point values approximate. *)
Theorem latLonToVector3_on_sphere (lat lon r : R) :
  Globe3D.latLonToVector3 lat lon r = Spec.project3D lat lon r /\
  Globe3D.latLonToVector3 90 0 2
  = {| THREE.x := 0; THREE.y := 2; THREE.z := 0 |} /\
  THREE.length (Globe3D.latLonToVector3 lat lon r) = Rabs r /\
  (0 <= r -> THREE.length (Globe3D.latLonToVector3 lat lon r) = r).
Proof.
  split; [|split; [|split]].
  - unfold Globe3D.latLonToVector3, Spec.project3D.
    replace ((90 - lat) * PI / 180) with ((90 - lat) * (PI / 180)) by field.
    replace ((lon + 180) * PI / 180) with ((lon + 180) * (PI / 180))
      by field.
    apply vector3_eq; cbn; ring.
  - exact latLonToVector3_north_pole.
  - apply length_latLonToVector3.
  - intros Hr. rewrite length_latLonToVector3. now apply Rabs_pos_eq.
Qed.

Lemma latLonToVector3_on_sphere_witness :
  THREE.length (Globe3D.latLonToVector3 90 0 2) = 2.
Proof.
  apply (proj2 (proj2 (proj2 (latLonToVector3_on_sphere 90 0 2)))).
  lra.
Defined.

(** ** Arcs *)

(** The points of an arc: 51 of them, the point [d] being the point at
    parameter [d / 50] of the quadratic Bezier curve of [arcCurve], which
    starts at the projection of the source and ends at that of the
    target. *)
Lemma arcPoints_samples (radius : R) (source target : Coords) :
  let s := Globe3D.latLonToVector3 (lat source) (lon source) radius in
  let g := Globe3D.latLonToVector3 (lat target) (lon target) radius in
  let points := Globe3D.arcPoints radius source target in
  List.length points = 51%nat /\
  (forall d, (d <= 50)%nat ->
             nth_error points d
             = Some (Spec.bezier s (Globe3D.controlPoint radius s g) g
                       (INR d / 50))) /\
  nth_error points 0 = Some s /\
  nth_error points 50 = Some g.
Proof.
  intros s g points.
  assert (Hnth : forall d, (d <= 50)%nat ->
             nth_error points d
             = Some (THREE.getPoint (Globe3D.arcCurve radius source target)
                       (INR d / 50))).
  { intros d Hd. subst points. unfold Globe3D.arcPoints.
    rewrite nth_getPoints by exact Hd. now rewrite INR_50. }
  split; [|split; [|split]].
  - subst points. unfold Globe3D.arcPoints. apply length_getPoints.
  - intros d Hd. rewrite (Hnth d Hd), getPoint_bezier. reflexivity.
  - rewrite (Hnth 0%nat) by lia.
    replace (INR 0 / 50) with 0 by (cbn; field).
    now rewrite getPoint_0.
  - rewrite (Hnth 50%nat) by lia.
    replace (INR 50 / 50) with 1 by (rewrite INR_50; field).
    now rewrite getPoint_1.
Qed.

(** * Further properties of the collection *)

Local Open Scope nat_scope.

Lemma with_status_idem (t : Threat) (s : string) :
  with_status (with_status t s) s = with_status t s.
Proof. reflexivity. Qed.

Lemma id_is_with_status (t : Threat) (s i : string) :
  id_is (with_status t s) i = id_is t i.
Proof. reflexivity. Qed.

(** Marking twice is marking once. *)
Lemma mark_idem (i : string) (l : list Threat) :
  map (fun t => if id_is t i then with_status t "Mitigated" else t)
    (map (fun t => if id_is t i then with_status t "Mitigated" else t) l)
  = map (fun t => if id_is t i then with_status t "Mitigated" else t) l.
Proof.
  rewrite map_map. apply map_ext. intros t.
  destruct (id_is t i) eqn:E.
  - now rewrite id_is_with_status, E.
  - now rewrite E.
Qed.

Lemma updateLocalState_idem captured i st :
  App.updateLocalState captured i (App.updateLocalState captured i st)
  = App.updateLocalState captured i st.
Proof.
  destruct st as [l sel al]. unfold App.updateLocalState.
  destruct captured as [s|]; [destruct (id_is s i)|];
    unfold App.setSelectedThreat, App.setThreats; cbn;
    rewrite mark_idem; try reflexivity.
  destruct sel as [p|]; reflexivity.
Qed.

(** The entries with the id [i] after [updateLocalState]. *)
Lemma marked_status (i : string) (l : list Threat) (t : Threat) :
  In t (map (fun t => if id_is t i then with_status t "Mitigated" else t) l) ->
  id t = Some i -> status t = "Mitigated".
Proof.
  intros Hin Hid. apply in_map_iff in Hin. destruct Hin as [u [Hu _]].
  destruct (id_is u i) eqn:E; subst t.
  - reflexivity.
  - apply id_is_true in Hid. congruence.
Qed.

Lemma filter_partition_length {A : Type} (p : A -> bool) (l : list A) :
  List.length (filter (fun a => negb (p a)) l) + List.length (filter p l)
  = List.length l.
Proof.
  induction l as [|a l IH]; cbn; [reflexivity|].
  destruct (p a); cbn; lia.
Qed.

Lemma filter_length_le' {A : Type} (p : A -> bool) (l : list A) :
  List.length (filter p l) <= List.length l.
Proof.
  induction l as [|a l IH]; cbn; [lia|]. destruct (p a); cbn; lia.
Qed.

Lemma filter_comm {A : Type} (p q : A -> bool) (l : list A) :
  filter p (filter q l) = filter q (filter p l).
Proof.
  induction l as [|a l IH]; cbn; [reflexivity|].
  destruct (p a) eqn:Ep, (q a) eqn:Eq; cbn; rewrite ?Ep, ?Eq, IH; reflexivity.
Qed.

Lemma mapThreats_In (f : string) (l : list Threat) (t : Threat) :
  In t (Dashboard.mapThreats f l) -> In t l.
Proof.
  unfold Dashboard.mapThreats. destruct (String.eqb f "All"); [auto|].
  intros H. now apply filter_In in H.
Qed.

(** The count of active attacks once every entry with the id [i] is
    marked. *)
Lemma activeAttacks_mark (i : string) (l : list Threat) :
  Dashboard.activeAttacks
    (map (fun t => if id_is t i then with_status t "Mitigated" else t) l)
  = List.length
      (filter (fun t => negb (String.eqb (status t) "Mitigated")
                        && negb (id_is t i)) l).
Proof.
  unfold Dashboard.activeAttacks.
  induction l as [|t l IH]; cbn [map filter]; [reflexivity|].
  destruct (id_is t i) eqn:E.
  - cbn. rewrite andb_false_r. exact IH.
  - rewrite andb_true_r.
    destruct (negb (String.eqb (status t) "Mitigated")); cbn; now rewrite IH.
Qed.

Lemma filter_andb_length_le {A : Type} (p q : A -> bool) (l : list A) :
  List.length (filter (fun a => p a && q a) l) <= List.length (filter p l).
Proof.
  induction l as [|a l IH]; cbn; [lia|].
  destruct (p a), (q a); cbn; lia.
Qed.

(** ** Mitigation, further *)

Lemma state_eq (st st' : App.State) :
  App.threats st = App.threats st' ->
  App.selectedThreat st = App.selectedThreat st' ->
  App.alerts st = App.alerts st' -> st = st'.
Proof. destruct st, st'; cbn; intros; subst; reflexivity. Qed.

(** The selected threat after [updateLocalState]. *)
Lemma selected_updateLocalState captured i st :
  App.selectedThreat (App.updateLocalState captured i st)
  = if App.capturedHas captured i
    then option_map (fun p => with_status p "Mitigated")
           (App.selectedThreat st)
    else App.selectedThreat st.
Proof.
  unfold App.updateLocalState, App.capturedHas.
  destruct captured as [s|]; [destruct (id_is s i)|]; reflexivity.
Qed.

(** X1: mitigating an id a second time.  Once a call for [i] was
    accepted (ok response, "Threat not found", or transport failure), a
    later accepted call for [i] leaves the collection and the alerts as
    the first one left them, whatever selected threat either call
    captured.  The selected threat is touched only when the second call
    captured a selected threat with the id [i], and then the threat that
    is selected when the call resolves is marked Mitigated.  So the whole
    state is unchanged when the second call captured no threat with the
    id [i], and also when it captured the same value as the first call. *)
Theorem mitigation_idempotent captured1 captured2 i o1 o2 st :
  App.Accepted o1 -> App.Accepted o2 ->
  let st1 := App.handleMitigate captured1 i o1 st in
  let st2 := App.handleMitigate captured2 i o2 st1 in
  App.threats st2 = App.threats st1 /\
  App.alerts st2 = App.alerts st1 /\
  App.selectedThreat st2
  = (if App.capturedHas captured2 i
     then option_map (fun p => with_status p "Mitigated")
            (App.selectedThreat st1)
     else App.selectedThreat st1) /\
  (App.capturedHas captured2 i = false -> st2 = st1) /\
  (captured2 = captured1 -> st2 = st1).
Proof.
  intros H1 H2. cbv zeta.
  rewrite (handleMitigate_accepted _ _ _ _ H2),
          (handleMitigate_accepted _ _ _ _ H1).
  assert (Ht : App.threats
                 (App.updateLocalState captured2 i
                    (App.updateLocalState captured1 i st))
               = App.threats (App.updateLocalState captured1 i st)).
  { rewrite !threats_updateLocalState. apply mark_idem. }
  assert (Ha : App.alerts
                 (App.updateLocalState captured2 i
                    (App.updateLocalState captured1 i st))
               = App.alerts (App.updateLocalState captured1 i st)).
  { now rewrite !alerts_updateLocalState. }
  split; [exact Ht|]. split; [exact Ha|].
  split; [apply selected_updateLocalState|]. split.
  - intros Hc. apply state_eq; auto.
    now rewrite selected_updateLocalState, Hc.
  - intros ->. apply updateLocalState_idem.
Qed.

(** The table button and then the button of the detail panel: the second
    call leaves the collection alone and marks the selected threat. *)
Lemma mitigation_idempotent_witness :
  let st :=
    App.setSelectedThreat (fun _ => Some Samples.detectedA)
      (App.onmessage (App.Json Samples.detectedA) App.init) in
  let st1 := App.handleMitigate None "A"
               (App.MitigateResponse true App.BodyNull) st in
  let st2 := App.handleMitigate (Some Samples.detectedA) "A"
               App.MitigateThrows st1 in
  App.threats st2 = App.threats st1 /\
  App.selectedThreat st1 = Some Samples.detectedA /\
  App.selectedThreat st2 = Some (with_status Samples.detectedA "Mitigated").
Proof.
  destruct (mitigation_idempotent None (Some Samples.detectedA) "A"
              (App.MitigateResponse true App.BodyNull) App.MitigateThrows
              (App.setSelectedThreat (fun _ => Some Samples.detectedA)
                 (App.onmessage (App.Json Samples.detectedA) App.init))
              (App.accepted_ok App.BodyNull) App.accepted_transport)
    as [Ht [_ [Hs _]]].
  cbv zeta. split; [exact Ht|]. split; [reflexivity|].
  rewrite Hs. reflexivity.
Defined.

Lemma id_eq_true (t : Threat) (j : option string) :
  App.id_eq t j = true <-> id t = j.
Proof.
  unfold App.id_eq. destruct (id t) as [a|], j as [b|].
  - rewrite String.eqb_eq. split; congruence.
  - split; discriminate.
  - split; discriminate.
  - split; reflexivity.
Qed.

Lemma id_eq_Some (t : Threat) (i : string) :
  App.id_eq t (Some i) = id_is t i.
Proof. unfold App.id_eq, id_is. destruct (id t); reflexivity. Qed.

(** For a string the two readings of [updateLocalState] agree. *)
Lemma updateLocalState_any_Some captured i st :
  App.updateLocalState_any captured (Some i) st
  = App.updateLocalState captured i st.
Proof.
  unfold App.updateLocalState_any, App.updateLocalState.
  assert (E : map (fun t => if App.id_eq t (Some i)
                            then with_status t "Mitigated" else t)
                (App.threats st)
              = map (fun t => if id_is t i
                              then with_status t "Mitigated" else t)
                  (App.threats st)).
  { apply map_ext. intros t. now rewrite id_eq_Some. }
  unfold App.setThreats. rewrite E.
  destruct captured as [s|]; [rewrite id_eq_Some|]; reflexivity.
Qed.

Lemma threats_updateLocalState_any captured j st :
  App.threats (App.updateLocalState_any captured j st) =
  map (fun t => if App.id_eq t j then with_status t "Mitigated" else t)
      (App.threats st).
Proof.
  unfold App.updateLocalState_any.
  destruct captured as [s|]; [destruct (App.id_eq s j)|]; reflexivity.
Qed.

Lemma handleMitigate_any_cases captured j o st :
  App.handleMitigate_any captured j o st
  = App.updateLocalState_any captured j st \/
  exists text, App.handleMitigate_any captured j o st = App.alert text st.
Proof.
  destruct o as [|ok [| |[m|]]]; cbn [App.handleMitigate_any]; auto;
    destruct ok; auto; [|eauto].
  destruct (String.eqb m "Threat not found"); eauto.
Qed.

Lemma handleMitigate_any_accepted captured j o st :
  App.Accepted o ->
  App.handleMitigate_any captured j o st
  = App.updateLocalState_any captured j st.
Proof.
  intros [body| |]; cbn; try reflexivity.
  destruct body as [| |m]; reflexivity.
Qed.

(** X2: a mitigation call, however it resolves, touches no entry whose
    id differs from the id it was given: such an entry stays at its
    position with every field as it was, and the collection keeps its
    length.  The id given is the [id] field of a record, so it can be
    absent: the call for an absent id leaves every entry that has an id
    as it was, and when it is accepted it marks every entry without an
    id.  For a string id the call is [handleMitigate] as modelled above. *)
Theorem mitigation_leaves_other_ids captured (j : option string) o st :
  (forall i,
      App.handleMitigate_any captured (Some i) o st
      = App.handleMitigate captured i o st) /\
  (forall n t,
      nth_error (App.threats st) n = Some t -> id t <> j ->
      nth_error (App.threats (App.handleMitigate_any captured j o st)) n
      = Some t) /\
  List.length (App.threats (App.handleMitigate_any captured j o st))
  = List.length (App.threats st) /\
  (App.Accepted o ->
   forall t, In t (App.threats (App.handleMitigate_any captured j o st)) ->
             id t = j -> status t = "Mitigated").
Proof.
  split; [|split; [|split]].
  - intros i.
    destruct o as [|ok [| |[m|]]];
      cbn [App.handleMitigate_any App.handleMitigate];
      try apply updateLocalState_any_Some.
    + destruct ok; [apply updateLocalState_any_Some|].
      destruct (String.eqb m "Threat not found");
        [apply updateLocalState_any_Some | reflexivity].
    + destruct ok; [apply updateLocalState_any_Some | reflexivity].
  - intros n t Hn Hid.
    destruct (handleMitigate_any_cases captured j o st) as [E|[text E]];
      rewrite E; [|exact Hn].
    rewrite threats_updateLocalState_any, nth_error_map, Hn. cbn.
    destruct (App.id_eq t j) eqn:Ej; [|reflexivity].
    apply id_eq_true in Ej. contradiction.
  - destruct (handleMitigate_any_cases captured j o st) as [E|[text E]];
      rewrite E; [|reflexivity].
    now rewrite threats_updateLocalState_any, length_map.
  - intros Hacc t Hin Hid.
    rewrite (handleMitigate_any_accepted _ _ _ _ Hacc) in Hin.
    rewrite threats_updateLocalState_any in Hin.
    apply in_map_iff in Hin. destruct Hin as [u [Hu _]].
    destruct (App.id_eq u j) eqn:E; subst t.
    + reflexivity.
    + apply id_eq_true in Hid. congruence.
Qed.

(** The button of a record without an id: the entry with the id A stays,
    the entry without an id is marked. *)
Lemma mitigation_leaves_other_ids_witness :
  let st := App.run (App.pushes [Samples.detectedA; Samples.withoutId])
              App.init in
  let st' := App.handleMitigate_any None None App.MitigateThrows st in
  nth_error (App.threats st') 1 = Some Samples.detectedA /\
  nth_error (App.threats st') 0
  = Some (with_status Samples.withoutId "Mitigated").
Proof.
  destruct (mitigation_leaves_other_ids None None App.MitigateThrows
              (App.run (App.pushes [Samples.detectedA; Samples.withoutId])
                 App.init)) as [_ [Hframe _]].
  split.
  - apply Hframe; [reflexivity | discriminate].
  - reflexivity.
Defined.

(** X3: the "Active Attacks" number never grows through a mitigation
    call, and after an accepted call for [i] it is the number of entries
    that were not Mitigated and have an id other than [i]. *)
Theorem active_attacks_after_mitigation captured i o st :
  let st' := App.handleMitigate captured i o st in
  Dashboard.activeAttacks (App.threats st')
  <= Dashboard.activeAttacks (App.threats st) /\
  (App.Accepted o ->
   Dashboard.activeAttacks (App.threats st')
   = List.length
       (filter (fun t => negb (String.eqb (status t) "Mitigated")
                         && negb (id_is t i)) (App.threats st))).
Proof.
  cbv zeta. split.
  - destruct (handleMitigate_cases captured i o st) as [E|[text E]];
      rewrite E; [|cbn [App.alert App.threats]; lia].
    rewrite threats_updateLocalState, activeAttacks_mark.
    apply (filter_andb_length_le
             (fun t => negb (String.eqb (status t) "Mitigated"))
             (fun t => negb (id_is t i))).
  - intros Hacc. rewrite (handleMitigate_accepted _ _ _ _ Hacc).
    rewrite threats_updateLocalState. apply activeAttacks_mark.
Qed.

Lemma active_attacks_after_mitigation_witness :
  let st := App.run (App.pushes [Samples.detectedA; Samples.detectedB])
              App.init in
  Dashboard.activeAttacks (App.threats st) = 2 /\
  Dashboard.activeAttacks
    (App.threats (App.handleMitigate None "B" App.MitigateThrows st)) = 1.
Proof.
  split; [reflexivity|].
  rewrite (proj2 (active_attacks_after_mitigation None "B" App.MitigateThrows
                    (App.run
                       (App.pushes [Samples.detectedA; Samples.detectedB])
                       App.init))
             App.accepted_transport).
  reflexivity.
Defined.

(** X4: in every state reached from the empty collection the numbers of
    the dashboard are consistent and bounded: active attacks plus
    mitigated entries is the size of the collection, active attacks is at
    most 50, and the total lies between 4281 and 4331. *)
Theorem dashboard_numbers_bounded (evs : list App.Event) :
  let l := App.threats (App.run evs App.init) in
  Dashboard.activeAttacks l
  + List.length (filter (fun t => String.eqb (status t) "Mitigated") l)
  = List.length l /\
  Dashboard.activeAttacks l <= 50 /\
  (4281 <= Dashboard.totalThreats l <= 4331)%Z.
Proof.
  cbv zeta.
  assert (H : List.length (App.threats (App.run evs App.init)) <= 50)
    by (apply run_capacity; cbn; lia).
  pose proof (filter_partition_length
                (fun t => String.eqb (status t) "Mitigated")
                (App.threats (App.run evs App.init))) as Hp.
  unfold Dashboard.activeAttacks, Dashboard.totalThreats.
  split; [exact Hp|]. split; lia.
Qed.

Lemma dashboard_numbers_bounded_witness :
  Dashboard.activeAttacks
    (App.threats
       (App.run
          [App.MessageReceived (App.Json Samples.detectedA);
           App.MitigationResolved None "A" App.MitigateThrows;
           App.MessageReceived (App.Json Samples.detectedB)]
          App.init)) <= 50.
Proof.
  apply (dashboard_numbers_bounded
           [App.MessageReceived (App.Json Samples.detectedA);
            App.MitigationResolved None "A" App.MitigateThrows;
            App.MessageReceived (App.Json Samples.detectedB)]).
Defined.

(** ** What the renderers receive *)

(** X5: after an accepted mitigation call for [i] no entry with the id
    [i] is drawn: it is neither among the visible threats of the flat map,
    whatever attack type filter is selected, nor among those of the
    globe. *)
Theorem mitigated_id_not_rendered captured i o st f t :
  App.Accepted o ->
  id t = Some i ->
  let l := App.threats (App.handleMitigate captured i o st) in
  ~ In t (GeoMap.visibleThreats (Dashboard.mapThreats f l)) /\
  ~ In t (Globe3D.visibleThreats l).
Proof.
  intros Hacc Hid l. subst l.
  rewrite (handleMitigate_accepted _ _ _ _ Hacc), threats_updateLocalState.
  assert (Hm : forall l0,
             In t l0 -> Globe3D.visible t = true ->
             In t (map (fun t => if id_is t i
                                 then with_status t "Mitigated" else t)
                     (App.threats st)) -> False).
  { intros _ _ Hv Hin. apply visible_true in Hv. destruct Hv as [Hd _].
    rewrite (marked_status i _ t Hin Hid) in Hd. discriminate. }
  split; intros H.
  - destruct (shown_is_visible _ t (or_introl H)) as [Hin Hv].
    apply mapThreats_In in Hin. eauto.
  - destruct (shown_is_visible _ t (or_intror H)) as [Hin Hv]. eauto.
Qed.

Lemma mitigated_id_not_rendered_witness :
  let st := App.onmessage (App.Json (Samples.located "Detected")) App.init in
  In (Samples.located "Detected") (Globe3D.visibleThreats (App.threats st)) /\
  ~ In (Samples.located "Detected")
      (Globe3D.visibleThreats
         (App.threats (App.handleMitigate None "L" App.MitigateThrows st))).
Proof.
  split.
  - cbn. now left.
  - apply (mitigated_id_not_rendered None "L" App.MitigateThrows
             (App.onmessage (App.Json (Samples.located "Detected")) App.init)
             "All" (Samples.located "Detected") App.accepted_transport).
    reflexivity.
Defined.

(** X6: the limit of 50 on the globe never hides a threat the flat map
    would show: in every state reached from the empty collection the
    visible threats of the globe are those of the flat map (with no type
    filter), in the same order, and there are at most 50 of them. *)
Theorem globe_shows_what_map_shows (evs : list App.Event) :
  let l := App.threats (App.run evs App.init) in
  Globe3D.visibleThreats l = GeoMap.visibleThreats l /\
  List.length (GeoMap.visibleThreats l) <= 50.
Proof.
  cbv zeta.
  assert (H : List.length (App.threats (App.run evs App.init)) <= 50)
    by (apply run_capacity; cbn; lia).
  assert (Hv : List.length
                 (GeoMap.visibleThreats (App.threats (App.run evs App.init)))
               <= 50).
  { unfold GeoMap.visibleThreats.
    pose proof (filter_length_le' GeoMap.visible
                  (App.threats (App.run evs App.init))). lia. }
  split; [|exact Hv].
  unfold Globe3D.visibleThreats. now apply slice50_short.
Qed.

(** X7: the attack type filter of the map page narrows what is drawn and
    nothing else: filtering by type and then by visibility equals
    filtering by visibility and then by type; with a filter other than
    'All' every threat handed to the map has that type; and with 'All'
    the whole collection is handed over. *)
Theorem type_filter_narrows (f : string) (l : list Threat) :
  GeoMap.visibleThreats (Dashboard.mapThreats f l)
  = Dashboard.mapThreats f (GeoMap.visibleThreats l) /\
  (f <> "All" ->
   forall t, In t (Dashboard.mapThreats f l) -> type t = f /\ In t l) /\
  Dashboard.mapThreats "All" l = l.
Proof.
  split; [|split].
  - unfold Dashboard.mapThreats, GeoMap.visibleThreats.
    destruct (String.eqb f "All"); [reflexivity|]. apply filter_comm.
  - intros Hf t Hin. unfold Dashboard.mapThreats in Hin.
    apply String.eqb_neq in Hf. rewrite Hf in Hin.
    apply filter_In in Hin. destruct Hin as [Hin Ht].
    apply String.eqb_eq in Ht. auto.
  - reflexivity.
Qed.

Lemma type_filter_narrows_witness :
  type Samples.detectedA = "DDoS" /\
  In Samples.detectedA [Samples.detectedA; Samples.detectedB].
Proof.
  apply (proj1 (proj2 (type_filter_narrows "DDoS"
                         [Samples.detectedA; Samples.detectedB]))).
  - discriminate.
  - cbn. now left.
Defined.

(** Each entry is counted by at most one location tile. *)
Lemma tile_indicator (loc : string) :
  (if String.eqb loc "Russia" then 1 else 0)
  + (if String.eqb loc "China" then 1 else 0)
  + (if String.eqb loc "USA" then 1 else 0)
  + (if String.eqb loc "Unknown" then 1 else 0)
  = if existsb (String.eqb loc) Dashboard.locationTiles then 1 else 0.
Proof.
  cbn [existsb Dashboard.locationTiles].
  destruct (String.eqb_spec loc "Russia") as [->|_]; [reflexivity|].
  destruct (String.eqb_spec loc "China") as [->|_]; [reflexivity|].
  destruct (String.eqb_spec loc "USA") as [->|_]; [reflexivity|].
  destruct (String.eqb loc "Unknown"); reflexivity.
Qed.

Lemma tiles_sum (l : list Threat) :
  List.length (filter (fun t => String.eqb (location t) "Russia") l)
  + List.length (filter (fun t => String.eqb (location t) "China") l)
  + List.length (filter (fun t => String.eqb (location t) "USA") l)
  + List.length (filter (fun t => String.eqb (location t) "Unknown") l)
  = List.length
      (filter (fun t => existsb (String.eqb (location t))
                          Dashboard.locationTiles) l).
Proof.
  induction l as [|t l IH]; [reflexivity|].
  cbn [filter]. pose proof (tile_indicator (location t)) as Ht.
  destruct (String.eqb (location t) "Russia"),
           (String.eqb (location t) "China"),
           (String.eqb (location t) "USA"),
           (String.eqb (location t) "Unknown"),
           (existsb (String.eqb (location t)) Dashboard.locationTiles);
    cbn [List.length] in *; lia.
Qed.

(** X8: the four location tiles of the map page count no threat twice:
    their numbers add up to the number of threats handed to the map whose
    location is one of the four, hence to at most the number of threats
    handed to the map. *)
Theorem location_tiles_count_once (f : string) (l : list Threat) :
  list_sum (map (Dashboard.locationCount f l) Dashboard.locationTiles)
  = List.length
      (filter (fun t => existsb (String.eqb (location t))
                          Dashboard.locationTiles)
         (Dashboard.mapThreats f l)) /\
  list_sum (map (Dashboard.locationCount f l) Dashboard.locationTiles)
  <= List.length (Dashboard.mapThreats f l).
Proof.
  assert (E : list_sum
                (map (Dashboard.locationCount f l) Dashboard.locationTiles)
              = List.length
                  (filter (fun t => existsb (String.eqb (location t))
                                      Dashboard.locationTiles)
                     (Dashboard.mapThreats f l))).
  { rewrite <- tiles_sum. unfold Dashboard.locationCount.
    cbn [Dashboard.locationTiles map list_sum fold_right]. lia. }
  split; [exact E|]. rewrite E. apply filter_length_le'.
Qed.

Lemma firstn_S_nonempty {A : Type} (n : nat) (l : list A) :
  l <> [] -> firstn (S n) l <> [].
Proof. destruct l; [congruence|]. cbn. discriminate. Qed.

(** X9: the response log lists at most 10 entries, all of them Mitigated
    entries of the collection, and none of them is drawn on the flat map
    or on the globe. *)
Theorem response_log_entries (l : list Threat) :
  List.length (Dashboard.responseLog l) <= 10 /\
  (forall t, In t (Dashboard.responseLog l) ->
             status t = "Mitigated" /\ In t l /\
             ~ In t (GeoMap.visibleThreats l) /\
             ~ In t (Globe3D.visibleThreats l)).
Proof.
  split.
  - unfold Dashboard.responseLog. apply firstn_le_length.
  - intros t Hin. unfold Dashboard.responseLog in Hin.
    apply In_firstn in Hin. apply filter_In in Hin.
    destruct Hin as [Hin Hm]. apply String.eqb_eq in Hm.
    assert (Hno : Globe3D.visible t = false).
    { unfold Globe3D.visible. rewrite Hm. reflexivity. }
    repeat split; auto; intros H.
    + destruct (shown_is_visible l t (or_introl H)) as [_ Hv]. congruence.
    + destruct (shown_is_visible l t (or_intror H)) as [_ Hv]. congruence.
Qed.

Lemma response_log_entries_witness :
  status (Samples.located "Mitigated") = "Mitigated" /\
  In (Samples.located "Mitigated")
    [Samples.located "Detected"; Samples.located "Mitigated"] /\
  ~ In (Samples.located "Mitigated")
      (GeoMap.visibleThreats
         [Samples.located "Detected"; Samples.located "Mitigated"]) /\
  ~ In (Samples.located "Mitigated")
      (Globe3D.visibleThreats
         [Samples.located "Detected"; Samples.located "Mitigated"]).
Proof.
  apply (proj2 (response_log_entries
                  [Samples.located "Detected"; Samples.located "Mitigated"])).
  cbn. now left.
Defined.

(** X10: an accepted mitigation call for the id of an entry of the
    collection fills the response log: afterwards the log is not empty,
    so the placeholder of the empty log is not shown. *)
Theorem accepted_mitigation_is_logged captured i o st t :
  App.Accepted o ->
  In t (App.threats st) -> id t = Some i ->
  Dashboard.responseLog (App.threats (App.handleMitigate captured i o st))
  <> [].
Proof.
  intros Hacc Hin Hid.
  rewrite (handleMitigate_accepted _ _ _ _ Hacc), threats_updateLocalState.
  unfold Dashboard.responseLog. apply firstn_S_nonempty.
  intros He.
  assert (Hw : In (with_status t "Mitigated")
                 (filter (fun t => String.eqb (status t) "Mitigated")
                    (map (fun t => if id_is t i
                                   then with_status t "Mitigated" else t)
                       (App.threats st)))).
  { apply filter_In. split; [|reflexivity].
    apply in_map_iff. exists t. split; [|exact Hin].
    apply id_is_true in Hid. now rewrite Hid. }
  rewrite He in Hw. exact Hw.
Qed.

Lemma accepted_mitigation_is_logged_witness :
  Dashboard.responseLog
    (App.threats
       (App.handleMitigate None "A" App.MitigateThrows
          (App.onmessage (App.Json Samples.detectedA) App.init))) <> [].
Proof.
  apply (accepted_mitigation_is_logged None "A" App.MitigateThrows
           (App.onmessage (App.Json Samples.detectedA) App.init)
           Samples.detectedA App.accepted_transport).
  - cbn. now left.
  - reflexivity.
Defined.

(** ** The chart and the table *)

Lemma nextGraphData_nonempty {P : Type} (prev : list P) (point : P) :
  prev <> [] ->
  Dashboard.nextGraphData prev point = skipn 1 (prev ++ [point]) /\
  Dashboard.nextGraphData prev point <> [].
Proof.
  intros H. destruct prev as [|a prev]; [congruence|].
  unfold Dashboard.nextGraphData. cbn. split; [reflexivity|].
  destruct prev; discriminate.
Qed.

(** X11: the chart data is a sliding window: starting from a list that is
    not empty, after the messages that bring [points] the chart holds the
    last entries of the initial list followed by the points, as many as
    it held at the start. *)
Theorem graph_data_window {P : Type} (points initial : list P) :
  initial <> [] ->
  Dashboard.graphDataAfter points initial
  = skipn (List.length points) (initial ++ points) /\
  List.length (Dashboard.graphDataAfter points initial)
  = List.length initial.
Proof.
  intros Hne.
  assert (E : Dashboard.graphDataAfter points initial
              = skipn (List.length points) (initial ++ points)).
  { revert initial Hne. induction points as [|p points IH]; intros g Hne.
    - cbn. now rewrite app_nil_r.
    - unfold Dashboard.graphDataAfter in *. cbn [fold_left List.length].
      destruct (nextGraphData_nonempty g p Hne) as [E Hne'].
      rewrite (IH _ Hne'), E.
      destruct g as [|a g]; [congruence|].
      cbn [app skipn]. rewrite <- app_assoc. reflexivity. }
  split; [exact E|].
  rewrite E, length_skipn, length_app. lia.
Qed.

Lemma graph_data_window_witness :
  Dashboard.graphDataAfter [6; 7; 8] [1; 2; 3; 4; 5] = [4; 5; 6; 7; 8].
Proof.
  rewrite (proj1 (graph_data_window [6; 7; 8] [1; 2; 3; 4; 5]
                    ltac:(discriminate))).
  reflexivity.
Defined.

Lemma substring_length_le (n : nat) (s : string) :
  String.length (substring 0 n s) <= n.
Proof.
  revert s. induction n as [|n IH]; intros [|c s]; cbn; try lia.
  specialize (IH s). lia.
Qed.

(** X12: the rows of the threat table can be labelled exactly when every
    entry has an id: one entry without an id makes [threat.id.slice]
    throw, whatever the other entries are.  When all ids are there, there
    is one label for each entry and no label is longer than 8. *)
Theorem table_labels_need_ids (l : list Threat) :
  (Dashboard.rowLabels l = None <-> In None (ids l)) /\
  (forall labels,
      Dashboard.rowLabels l = Some labels ->
      List.length labels = List.length l /\
      Forall (fun s => String.length s <= 8) labels).
Proof.
  induction l as [|t l [IH1 IH2]].
  - split.
    + cbn. split; [discriminate | tauto].
    + intros labels H. inversion H. split; [reflexivity | constructor].
  - cbn [Dashboard.rowLabels ids map In]. unfold Dashboard.rowLabel.
    fold (ids l).
    destruct (id t) as [i|].
    + destruct (Dashboard.rowLabels l) as [ls|] eqn:E.
      * split.
        -- split; [discriminate|]. intros [H|H]; [discriminate|].
           apply IH1 in H. discriminate.
        -- intros labels H. inversion H. subst labels.
           destruct (IH2 ls eq_refl) as [Hl Hf]. cbn. split; [lia|].
           constructor; [apply substring_length_le | exact Hf].
      * split.
        -- split; [intros _; right; now apply IH1 | reflexivity].
        -- discriminate.
    + split; [split; auto | discriminate].
Qed.

Lemma table_labels_need_ids_witness :
  Dashboard.rowLabels [Samples.detectedA; Samples.withoutId] = None.
Proof.
  apply (proj1 (table_labels_need_ids
                  [Samples.detectedA; Samples.withoutId])).
  cbn. right. now left.
Defined.

(** X13: a pushed record without an id breaks the threat table at once:
    it is the first entry after the push, so labelling the rows throws,
    whatever the collection held before. *)
Theorem push_without_id_breaks_table data st :
  id data = None ->
  Dashboard.rowLabels (App.threats (App.onmessage (App.Json data) st)) = None.
Proof.
  intros H. cbn [App.onmessage App.setThreats App.threats].
  unfold slice50. change 50 with (S 49). rewrite firstn_cons.
  cbn [Dashboard.rowLabels]. unfold Dashboard.rowLabel. now rewrite H.
Qed.

Lemma push_without_id_breaks_table_witness :
  Dashboard.rowLabels
    (App.threats
       (App.onmessage (App.Json Samples.withoutId)
          (App.onmessage (App.Json Samples.detectedA) App.init))) = None.
Proof.
  exact (push_without_id_breaks_table Samples.withoutId
           (App.onmessage (App.Json Samples.detectedA) App.init) eq_refl).
Defined.

(** * Further properties of the flat map *)

Lemma visible_filter_id (p : Threat -> bool) (l : list Threat) :
  (forall t, GeoMap.visible t = true -> p t = true) ->
  filter p (GeoMap.visibleThreats l) = GeoMap.visibleThreats l.
Proof.
  intros H. apply forallb_filter_id. apply forallb_forall.
  intros t Hin. apply filter_In in Hin. apply H. tauto.
Qed.

(** What [AutoFitBounds] and the target marker give for the visible
    threats of a collection. *)
Lemma visible_framing (l : list Threat) :
  let v := GeoMap.visibleThreats l in
  (MapStyle.AutoFitBounds v = None <-> v = []) /\
  (forall bounds,
      MapStyle.AutoFitBounds v = Some bounds ->
      bounds = map MapStyle.cornerOf v /\ ~ In None bounds) /\
  (MapStyle.targetMarker v = None <-> v = []).
Proof.
  cbv zeta.
  assert (Hf : filter (fun t => truthy (source_coords t))
                 (GeoMap.visibleThreats l) = GeoMap.visibleThreats l).
  { apply visible_filter_id. intros t Hv. rewrite GeoMap_visible_eq in Hv.
    apply visible_true in Hv. destruct Hv as [_ [[s Hs] _]].
    now rewrite Hs. }
  assert (Hc : ~ In None (map MapStyle.cornerOf (GeoMap.visibleThreats l))).
  { intros H. apply in_map_iff in H. destruct H as [t [Hn Hin]].
    apply filter_In in Hin. destruct Hin as [_ Hv].
    rewrite GeoMap_visible_eq in Hv. apply visible_true in Hv.
    destruct Hv as [_ [[s Hs] _]].
    unfold MapStyle.cornerOf in Hn. rewrite Hs in Hn. discriminate. }
  unfold MapStyle.AutoFitBounds. rewrite Hf, length_map.
  destruct (GeoMap.visibleThreats l) as [|t v] eqn:Ev.
  - cbn. repeat split; auto; discriminate.
  - cbn [List.length Nat.ltb Nat.leb MapStyle.targetMarker].
    split; [split; discriminate|]. split.
    + intros bounds H. inversion H. subst bounds. split; [reflexivity|].
      exact Hc.
    + assert (Hv : GeoMap.visible t = true).
      { assert (Hin : In t (GeoMap.visibleThreats l))
          by (rewrite Ev; now left).
        now apply filter_In in Hin. }
      rewrite GeoMap_visible_eq in Hv. apply visible_true in Hv.
      destruct Hv as [_ [_ [g Hg]]]. rewrite Hg.
      split; discriminate.
Qed.

(** When the labels can be computed, and how many there are. *)
Lemma rowLabels_None (l : list Threat) :
  Dashboard.rowLabels l = None <-> In None (ids l).
Proof.
  induction l as [|t l IH]; cbn [Dashboard.rowLabels ids map In].
  - split; [discriminate | tauto].
  - unfold Dashboard.rowLabel. fold (ids l).
    destruct (id t) as [i|]; [|split; auto].
    destruct (Dashboard.rowLabels l) as [ls|].
    + split; [discriminate|]. intros [H|H]; [discriminate|].
      apply IH in H. discriminate.
    + split; [intros _; right; now apply IH | reflexivity].
Qed.

Lemma rowLabels_length (l : list Threat) (labels : list string) :
  Dashboard.rowLabels l = Some labels ->
  List.length labels = List.length l.
Proof.
  revert labels. induction l as [|t l IH]; intros labels H.
  - inversion H. reflexivity.
  - cbn [Dashboard.rowLabels] in H.
    destruct (Dashboard.rowLabel t); [|discriminate].
    destruct (Dashboard.rowLabels l) as [ls|]; [|discriminate].
    inversion H. cbn. now rewrite (IH ls eq_refl).
Qed.

(** X14: one render of the flat map.  The render throws exactly when a
    visible threat has no id (its popup evaluates [threat.id.slice]); then
    nothing is drawn and [fitBounds] is not called.  When it does not
    throw, there is one popup label for each visible threat, [fitBounds]
    is called unless no threat is visible, with one corner for each
    visible threat and no corner read from absent coordinates, and the
    target marker is drawn unless no threat is visible. *)
Theorem map_framing (l : list Threat) :
  let v := GeoMap.visibleThreats l in
  (MapStyle.render l = None <-> In None (ids v)) /\
  (forall d,
      MapStyle.render l = Some d ->
      List.length (MapStyle.popupLabels d) = List.length v /\
      (MapStyle.fit d = None <-> v = []) /\
      (forall bounds,
          MapStyle.fit d = Some bounds ->
          bounds = map MapStyle.cornerOf v /\ ~ In None bounds) /\
      (MapStyle.target d = None <-> v = [])).
Proof.
  cbv zeta. unfold MapStyle.render. split.
  - rewrite <- rowLabels_None.
    destruct (Dashboard.rowLabels (GeoMap.visibleThreats l));
      split; congruence.
  - intros d Hd.
    destruct (Dashboard.rowLabels (GeoMap.visibleThreats l)) as [ls|] eqn:E;
      [|discriminate].
    injection Hd as <-. cbn [MapStyle.popupLabels MapStyle.fit MapStyle.target].
    split; [now apply rowLabels_length|].
    exact (visible_framing l).
Qed.

(** A collection with one visible threat: the bounds are fitted and the
    target marker is drawn. *)
Lemma map_framing_witness :
  match MapStyle.render [Samples.detectedA; Samples.located "Detected"] with
  | Some d => MapStyle.fit d <> None /\ MapStyle.target d <> None
  | None => False
  end.
Proof.
  pose proof (map_framing [Samples.detectedA; Samples.located "Detected"])
    as [Hthrow Hdraw].
  destruct (MapStyle.render [Samples.detectedA; Samples.located "Detected"])
    as [d|].
  - destruct (Hdraw d eq_refl) as [_ [Hf [_ Ht]]].
    split; intros H.
    + apply Hf in H. discriminate H.
    + apply Ht in H. discriminate H.
  - destruct (proj1 Hthrow eq_refl) as [H|[]]. discriminate H.
Defined.

(** X15: [AutoFitBounds] is safe on any list, not only on the one the map
    passes: when it calls [fitBounds] the bounds are not empty and every
    corner comes from a threat that has source coordinates; a list in
    which no threat has source coordinates leads to no call. *)
Theorem fit_bounds_safe (threats : list Threat) :
  (forall bounds,
      MapStyle.AutoFitBounds threats = Some bounds ->
      bounds <> [] /\ ~ In None bounds) /\
  ((forall t, In t threats -> source_coords t = None) ->
   MapStyle.AutoFitBounds threats = None).
Proof.
  split.
  - intros bounds H. unfold MapStyle.AutoFitBounds in H.
    destruct (0 <? List.length threats); [|discriminate].
    destruct (0 <? List.length _) eqn:E in H; [|discriminate].
    inversion H. subst bounds. split.
    + intros He. rewrite He in E. discriminate.
    + intros Hin. apply in_map_iff in Hin. destruct Hin as [t [Hn Ht]].
      apply filter_In in Ht. destruct Ht as [_ Ht].
      unfold MapStyle.cornerOf in Hn.
      destruct (source_coords t); discriminate.
  - intros H. unfold MapStyle.AutoFitBounds.
    destruct (0 <? List.length threats); [|reflexivity].
    replace (filter (fun t => truthy (source_coords t)) threats)
      with (@nil Threat); [reflexivity|].
    symmetry. induction threats as [|t l IH]; [reflexivity|].
    cbn. rewrite (H t (or_introl eq_refl)). cbn.
    apply IH. intros u Hu. apply H. now right.
Qed.

Lemma fit_bounds_safe_witness :
  MapStyle.AutoFitBounds [Samples.detectedA; Samples.detectedB] = None.
Proof.
  apply (proj2 (fit_bounds_safe [Samples.detectedA; Samples.detectedB])).
  intros t [<-|[<-|[]]]; reflexivity.
Defined.

(** ** Styles *)

(** X16: the stroke of a polyline comes from the attack type alone and
    the colour from the severity alone.  For an attack type that is not
    the name of a property inherited from [Object.prototype], the stroke
    has a weight from 1 to 4 and an opacity from 0.4 to 0.9; and when
    such a type is none of the 14 listed ones, the stroke is the default:
    solid, weight 2, opacity 0.6. *)
Theorem path_style_bounds (attackType severity : string) :
  inherited attackType = false ->
  let style := MapStyle.getAttackPathStyle attackType severity in
  snd style = MapStyle.getSeverityColor severity /\
  fst style = MapStyle.strokeOf attackType /\
  (exists w o,
      MapStyle.weight (fst style) = Some w /\ (1 <= w <= 4)%Z /\
      MapStyle.opacity (fst style) = Some o /\ (0.4 <= o <= 0.9)%R) /\
  (own MapStyle.attackStyles attackType = None ->
   fst style = MapStyle.mkStroke None (Some 2%Z) (Some 0.6%R)).
Proof.
  intros Hi. cbv zeta. cbn [fst snd MapStyle.getAttackPathStyle].
  split; [reflexivity|]. split; [reflexivity|]. split.
  - unfold MapStyle.strokeOf, MapStyle.attackStyles, own.
    repeat match goal with
           | |- context [String.eqb attackType ?k] =>
               destruct (String.eqb attackType k);
               [cbn; do 2 eexists; repeat split; try lia; lra|]
           end.
    rewrite Hi. cbn. do 2 eexists. repeat split; try lia; lra.
  - intros Hn. unfold MapStyle.strokeOf. now rewrite Hn, Hi.
Qed.

Lemma path_style_bounds_witness :
  fst (MapStyle.getAttackPathStyle "Port Scan" "Low")
  = MapStyle.strokeOf "Port Scan" /\
  fst (MapStyle.getAttackPathStyle "Worm" "Low")
  = MapStyle.mkStroke None (Some 2%Z) (Some 0.6%R).
Proof.
  split.
  - apply (path_style_bounds "Port Scan" "Low"). reflexivity.
  - apply (path_style_bounds "Worm" "Low"); reflexivity.
Defined.



(** ** Freshness, further *)

(** X18: the "NEW" flag only ever goes away: if a marker is not new at
    some clock reading it is not new at any later one; and a threat whose
    time stamp is not before the clock reading (a sender's clock that
    runs ahead) is new. *)
Theorem isNew_only_expires
    (getTime : string -> option Z) (e : Threat) (now later : Z) :
  ((now <= later)%Z ->
   GeoMap.isNew getTime e now = false ->
   GeoMap.isNew getTime e later = false) /\
  (forall t, getTime (timestamp e) = Some t -> (now <= t)%Z ->
             GeoMap.isNew getTime e now = true).
Proof.
  unfold GeoMap.isNew. split.
  - intros Hle. destruct (getTime (timestamp e)) as [t|]; [|auto].
    rewrite !Z.ltb_ge. lia.
  - intros t E Hle. rewrite E. apply Z.ltb_lt. lia.
Qed.

Lemma isNew_only_expires_witness :
  GeoMap.isNew (fun _ => Some 1000%Z) Samples.detectedA 20000 = false /\
  GeoMap.isNew (fun _ => Some 1000%Z) Samples.detectedA 500 = true.
Proof.
  split.
  - apply (proj1 (isNew_only_expires (fun _ => Some 1000%Z)
                    Samples.detectedA 11000 20000)); [lia | reflexivity].
  - apply (proj2 (isNew_only_expires (fun _ => Some 1000%Z)
                    Samples.detectedA 500 500) 1000%Z); [reflexivity | lia].
Defined.

(** * Further properties of the globe *)

Local Open Scope R_scope.

Lemma sin_add_2PI (x : R) : sin (x + 2 * PI) = sin x.
Proof. rewrite sin_plus, sin_2PI, cos_2PI. ring. Qed.

Lemma cos_add_2PI (x : R) : cos (x + 2 * PI) = cos x.
Proof. rewrite cos_plus, sin_2PI, cos_2PI. ring. Qed.

Lemma cos_PI_minus (x : R) : cos (PI - x) = - cos x.
Proof. rewrite cos_minus, cos_PI, sin_PI. ring. Qed.

Lemma latLonToVector3_turn (lat lon r : R) :
  Globe3D.latLonToVector3 lat (lon + 360) r = Globe3D.latLonToVector3 lat lon r.
Proof.
  unfold Globe3D.latLonToVector3.
  replace ((lon + 360 + 180) * (PI / 180))
    with ((lon + 180) * (PI / 180) + 2 * PI) by field.
  now rewrite sin_add_2PI, cos_add_2PI.
Qed.

(** X19: the projection wraps around the globe.  Adding 360 degrees to
    the longitude gives the same point, so both sides of the date line
    (longitude -180 and 180) meet; the height of a point is the radius
    times the sine of the latitude, whatever the longitude; and the
    opposite latitude at the longitude half a turn on is the opposite
    point of the sphere. *)
Theorem latLonToVector3_wraps (lat lon r : R) :
  Globe3D.latLonToVector3 lat (lon + 360) r
  = Globe3D.latLonToVector3 lat lon r /\
  Globe3D.latLonToVector3 lat (-180) r = Globe3D.latLonToVector3 lat 180 r /\
  THREE.y (Globe3D.latLonToVector3 lat lon r) = r * sin (lat * (PI / 180)) /\
  Globe3D.latLonToVector3 (- lat) (lon + 180) r
  = THREE.multiplyScalar (Globe3D.latLonToVector3 lat lon r) (-1).
Proof.
  split; [apply latLonToVector3_turn|]. split; [|split].
  - rewrite <- (latLonToVector3_turn lat (-180) r).
    f_equal. lra.
  - cbn. replace ((90 - lat) * (PI / 180))
      with (PI / 2 - lat * (PI / 180)) by field.
    now rewrite cos_shift.
  - unfold Globe3D.latLonToVector3, THREE.multiplyScalar. cbn.
    replace ((90 - - lat) * (PI / 180))
      with (PI - (90 - lat) * (PI / 180)) by field.
    replace ((lon + 180 + 180) * (PI / 180))
      with ((lon + 180) * (PI / 180) + PI) by field.
    rewrite sin_PI_x, cos_PI_minus, neg_sin, neg_cos.
    apply vector3_eq; cbn; ring.
Qed.















(** X22: what the globe draws.  For any collection there are at most 50
    arcs and as many markers; every marker sits on the sphere of radius
    2; and every arc has 51 points, the first and the last of which are
    on that sphere. *)
Theorem globe_drawing (activeThreats : list Threat) :
  (List.length (Globe3D.arcs activeThreats) <= 50)%nat /\
  List.length (Globe3D.markers activeThreats)
  = List.length (Globe3D.arcs activeThreats) /\
  (forall m, In m (Globe3D.markers activeThreats) ->
             exists v, m = Some v /\ THREE.length v = 2) /\
  (forall a, In a (Globe3D.arcs activeThreats) ->
             exists points colour first last,
               a = Some (points, colour) /\
               List.length points = 51%nat /\
               nth_error points 0 = Some first /\
               nth_error points 50 = Some last /\
               THREE.length first = 2 /\ THREE.length last = 2).
Proof.
  assert (Hlen : forall lat lon,
             THREE.length (Globe3D.latLonToVector3 lat lon 2) = 2).
  { intros. rewrite length_latLonToVector3. apply Rabs_pos_eq. lra. }
  split; [|split; [|split]].
  - unfold Globe3D.arcs. rewrite length_map.
    apply (slice50_length (filter Globe3D.visible activeThreats)).
  - unfold Globe3D.markers, Globe3D.arcs. now rewrite !length_map.
  - intros m Hin. unfold Globe3D.markers in Hin.
    apply in_map_iff in Hin. destruct Hin as [t [Hm Hin]].
    destruct (shown_is_visible activeThreats t (or_intror Hin)) as [_ Hv].
    apply visible_true in Hv. destruct Hv as [_ [[s Hs] _]].
    unfold Globe3D.markerOf in Hm. rewrite Hs in Hm.
    eexists. split; [symmetry; exact Hm | apply Hlen].
  - intros a Hin. unfold Globe3D.arcs in Hin.
    apply in_map_iff in Hin. destruct Hin as [t [Ha Hin]].
    destruct (shown_is_visible activeThreats t (or_intror Hin)) as [_ Hv].
    apply visible_true in Hv. destruct Hv as [_ [[s Hs] [g Hg]]].
    unfold Globe3D.arcOf in Ha. rewrite Hs, Hg in Ha.
    exists (Globe3D.AttackArc s g), (Globe3D.colorOf (severity t)),
      (Globe3D.latLonToVector3 (lat s) (lon s) 2),
      (Globe3D.latLonToVector3 (lat g) (lon g) 2).
    split; [now symmetry|].
    unfold Globe3D.AttackArc, Globe3D.arcPoints, Globe3D.radius.
    split; [apply length_getPoints|].
    rewrite !nth_getPoints by lia.
    replace (INR 0 / INR 50) with 0 by (rewrite INR_50; cbn; field).
    replace (INR 50 / INR 50) with 1 by (rewrite INR_50; field).
    rewrite getPoint_0, getPoint_1. cbn [Globe3D.arcCurve THREE.v0 THREE.v2].
    repeat split; apply Hlen.
Qed.

Lemma globe_drawing_witness :
  exists v,
    Some (Globe3D.latLonToVector3 90 0 2) = Some v /\ THREE.length v = 2.
Proof.
  apply (proj1 (proj2 (proj2 (globe_drawing [Samples.located "Detected"])))).
  cbn. now left.
Defined.

(** * Interleaving *)

Local Open Scope nat_scope.

Lemma mark_slice50_cons (i : string) (data : Threat) (l : list Threat) :
  id data <> Some i ->
  map (fun t => if id_is t i then with_status t "Mitigated" else t)
    (slice50 (data :: l))
  = slice50
      (data
       :: map (fun t => if id_is t i then with_status t "Mitigated" else t) l).
Proof.
  intros Hid. unfold slice50. rewrite <- firstn_map. cbn [map].
  destruct (id_is data i) eqn:E; [|reflexivity].
  apply id_is_true in E. contradiction.
Qed.

(** X23: a push and the resolution of a mitigation call for another id
    can come in either order: when the pushed record does not have the id
    [i], resolving the call for [i] after the push gives the same state
    as before it, however the call resolves. *)
Theorem push_and_mitigation_commute captured i o data st :
  id data <> Some i ->
  App.handleMitigate captured i o (App.onmessage (App.Json data) st)
  = App.onmessage (App.Json data) (App.handleMitigate captured i o st).
Proof.
  intros Hid. destruct st as [l sel al].
  assert (Hu : App.updateLocalState captured i
                 (App.onmessage (App.Json data) (App.mkState l sel al))
               = App.onmessage (App.Json data)
                   (App.updateLocalState captured i (App.mkState l sel al))).
  { unfold App.updateLocalState.
    destruct captured as [s|]; [destruct (id_is s i)|];
      cbv beta iota zeta
        delta [App.onmessage App.setThreats App.setSelectedThreat
               App.threats App.selectedThreat App.alerts];
      now rewrite mark_slice50_cons. }
  destruct o as [|ok [| |[m|]]]; cbn [App.handleMitigate]; auto;
    destruct ok; auto.
  destruct (String.eqb m "Threat not found"); auto.
Qed.

Lemma push_and_mitigation_commute_witness :
  let st := App.onmessage (App.Json Samples.detectedA) App.init in
  App.handleMitigate None "A" App.MitigateThrows
    (App.onmessage (App.Json Samples.detectedB) st)
  = App.onmessage (App.Json Samples.detectedB)
      (App.handleMitigate None "A" App.MitigateThrows st).
Proof.
  apply (push_and_mitigation_commute None "A" App.MitigateThrows
           Samples.detectedB
           (App.onmessage (App.Json Samples.detectedA) App.init)).
  discriminate.
Defined.

(** X24: the order does matter for a pushed record that has the id [i]
    and is not Mitigated: resolved after the push, an accepted call marks
    the record; resolved before it, the call leaves the record as pushed,
    so the id is shown as an active attack again. *)
Theorem push_races_mitigation captured i o data st :
  App.Accepted o ->
  id data = Some i ->
  hd_error
    (App.threats
       (App.handleMitigate captured i o (App.onmessage (App.Json data) st)))
  = Some (with_status data "Mitigated") /\
  hd_error
    (App.threats
       (App.onmessage (App.Json data) (App.handleMitigate captured i o st)))
  = Some data.
Proof.
  intros Hacc Hid. rewrite !(handleMitigate_accepted _ _ _ _ Hacc).
  rewrite threats_updateLocalState.
  cbn [App.onmessage App.setThreats App.threats].
  unfold slice50. change 50 with (S 49). rewrite !firstn_cons. cbn [map hd_error].
  apply id_is_true in Hid. rewrite Hid. split; reflexivity.
Qed.

Lemma push_races_mitigation_witness :
  hd_error
    (App.threats
       (App.onmessage (App.Json Samples.detectedA)
          (App.handleMitigate None "A" App.MitigateThrows
             (App.onmessage (App.Json Samples.detectedA) App.init))))
  = Some Samples.detectedA.
Proof.
  apply (push_races_mitigation None "A" App.MitigateThrows Samples.detectedA
           (App.onmessage (App.Json Samples.detectedA) App.init)
           App.accepted_transport eq_refl).
Defined.
